(** * Chess rating-history aggregation: a shallow embedding and its properties

    The development follows the JavaScript module that talks to the public
    chess archive API: [fetchJson], [getUtcRefreshKey],
    [getMonthUrlsFromJoined], [fetchMonthlyArchives], [fetchRapidHistory]
    and [fetchGamesBetween].  Pure code is embedded as functions; code that
    performs requests or touches [localStorage] threads an explicit state
    and returns either a value or the exception it throws. *)

From Stdlib Require Import ZArith List String Ascii Bool Lia Arith.
From Stdlib Require Import Sorted Permutation DecimalString OrderedTypeEx.
From Equations Require Import Equations.
Import ListNotations.

Set Warnings "-register-all".

Local Open Scope string_scope.
Local Open Scope Z_scope.

(** ** Platform primitives

    The functions of this module model the parts of the JavaScript runtime the
    program calls: string methods, number printing, [Date] and
    [Array.prototype.sort]. *)

Module JS.

(** [String.prototype.toLowerCase], on the ASCII range (player handles of
    the archive API are ASCII). *)
Definition lower_ascii (c : ascii) : ascii :=
  let n := nat_of_ascii c in
  if (Nat.leb 65 n && Nat.leb n 90)%bool then ascii_of_nat (n + 32) else c.

Fixpoint toLowerCase (s : string) : string :=
  match s with
  | EmptyString => EmptyString
  | String c rest => String (lower_ascii c) (toLowerCase rest)
  end.

(** [String(n)] for an integer-valued number. *)
Definition String_of (n : Z) : string := NilZero.string_of_int (Z.to_int n).

Fixpoint repeat_string (s : string) (n : nat) : string :=
  match n with
  | O => EmptyString
  | S k => s ++ repeat_string s k
  end.

(** [s.padStart(targetLength, padString)]: the pad string is repeated and
    cut to the missing length; nothing happens when [s] is long enough or
    the pad string is empty. *)
Definition padStart (targetLength : nat) (padString : string) (s : string) : string :=
  let missing := (targetLength - String.length s)%nat in
  match padString with
  | EmptyString => s
  | _ => substring 0 missing (repeat_string padString missing) ++ s
  end.

(** [s.slice(0, n)]. *)
Definition slice0 (n : nat) (s : string) : string := substring 0 n s.

(** *** Dates

    A [Date] holds a time value in milliseconds since the epoch, or is
    invalid when the value is outside the range of [TimeClip]. *)
Definition msPerDay : Z := 86400000.

Definition TimeClip (t : Z) : option Z :=
  if Z.abs t <=? 8640000000000000 then Some t else None.

Definition Day (t : Z) : Z := t / msPerDay.
Definition TimeWithinDay (t : Z) : Z := t mod msPerDay.

(** Year, month (1..12) and day of month of a day number counted from
    1970-01-01, in the proleptic Gregorian calendar. *)
Definition civil_from_days (days : Z) : Z * Z * Z :=
  let z := days + 719468 in
  let era := z / 146097 in
  let doe := z - era * 146097 in
  let yoe := (doe - doe / 1460 + doe / 36524 - doe / 146096) / 365 in
  let y := yoe + era * 400 in
  let doy := doe - (365 * yoe + yoe / 4 - yoe / 100) in
  let mp := (5 * doy + 2) / 153 in
  let d := doy - (153 * mp + 2) / 5 + 1 in
  let m := if mp <? 10 then mp + 3 else mp - 9 in
  (if m <=? 2 then y + 1 else y, m, d).

(** The day number of a civil date ([MakeDay]); it serves to check the
    calendar above and the timestamps of the scenarios. *)
Definition days_from_civil (y m d : Z) : Z :=
  let y' := if m <=? 2 then y - 1 else y in
  let era := y' / 400 in
  let yoe := y' - era * 400 in
  let mp := if 2 <? m then m - 3 else m + 9 in
  let doy := (153 * mp + 2) / 5 + d - 1 in
  let doe := yoe * 365 + yoe / 4 - yoe / 100 + doy in
  era * 146097 + doe - 719468.

Definition YearFromTime (t : Z) : Z := fst (fst (civil_from_days (Day t))).
(** [MonthFromTime] is zero-based, as [getUTCMonth] is. *)
Definition MonthFromTime (t : Z) : Z := snd (fst (civil_from_days (Day t))) - 1.
Definition DateFromTime (t : Z) : Z := snd (civil_from_days (Day t)).

(** [new Date(v).getUTCFullYear()] and [.getUTCMonth()]; [None] is NaN, the
    answer of an invalid date. *)
Definition getUTCFullYear (d : option Z) : option Z := option_map YearFromTime d.
Definition getUTCMonth (d : option Z) : option Z := option_map MonthFromTime d.

Definition pad (n : nat) (v : Z) : string := padStart n "0" (String_of v).

(** The year of [toISOString]: four digits for years 0..9999, otherwise a
    sign and six digits. *)
Definition iso_year (y : Z) : string :=
  if (0 <=? y) && (y <=? 9999) then pad 4 y
  else (if y <? 0 then "-" else "+") ++ pad 6 (Z.abs y).

(** [new Date(t).toISOString()] for a valid time value [t]. *)
Definition toISOString (t : Z) : string :=
  let '(y, m, d) := civil_from_days (Day t) in
  let r := TimeWithinDay t in
  iso_year y ++ "-" ++ pad 2 m ++ "-" ++ pad 2 d ++ "T" ++
  pad 2 (r / 3600000) ++ ":" ++ pad 2 ((r / 60000) mod 60) ++ ":" ++
  pad 2 ((r / 1000) mod 60) ++ "." ++ pad 3 (r mod 1000) ++ "Z".

(** *** Sorting

    [Array.prototype.sort(cmp)] is stable: an element moves in front of
    another one only when the comparator is negative for the pair.  For a
    consistent comparator the stable result is unique, and it is computed
    here by insertion. *)
Section Sort.
Context {A : Type} (cmp : A -> A -> Z).

Fixpoint insert (x : A) (l : list A) : list A :=
  match l with
  | [] => [x]
  | y :: l' => if cmp x y <=? 0 then x :: y :: l' else y :: insert x l'
  end.

Fixpoint sort (l : list A) : list A :=
  match l with
  | [] => []
  | x :: l' => insert x (sort l')
  end.
End Sort.

(** [a.localeCompare(b)] restricted to the strings on which it is modelled:
    calendar-day strings [YYYY-MM-DD] (years 0 to 9999, see [iso_day] below),
    made of ASCII digits with the separators at fixed positions.  On these
    the collation of the platform is the code-unit order.  On other strings
    (signed six-digit years, letters in both cases, accents) the platform
    collates by locale and this definition does not describe it; a statement
    about the order of the series therefore carries the [iso_day]
    hypothesis. *)
Definition localeCompare (a b : string) : Z :=
  match String.compare a b with
  | Lt => -1
  | Eq => 0
  | Gt => 1
  end.

End JS.

(** ** Data model *)

(** One side of a game, as the archive endpoint reports it.  A field that is
    absent from the payload (or, for [rating], is not a number) is [None]. *)
Record participant := {
  username : option string;
  rating : option Z
}.

(** A game record: [{ end_time, time_class, rated, white, black }]. *)
Record game := {
  end_time : Z;
  time_class : string;
  rated : bool;
  white : option participant;
  black : option participant
}.

(** A rating sample [{ date, rating, epoch }] of the history series. *)
Record sample := {
  date : string;
  sample_rating : Z;
  epoch : Z
}.

(** A number-typed argument as JavaScript may pass it.  The finite numbers
    of interest are whole: the archive API reports [joined] in seconds. *)
Inductive js_number :=
| Absent                 (* undefined, null or a value of another type *)
| NaN
| Infinity (negative : bool)
| Finite (z : Z).

Definition Number_isFinite (v : js_number) : bool :=
  match v with
  | Finite _ => true
  | _ => false
  end.

(** The JSON object of a response, seen through the fields the program
    reads; a [null] body is [None]. *)
Record payload_object := {
  joined : js_number;
  archives : option (list string);
  games : option (list game)
}.

Definition payload := option payload_object.

(** Values held by the history cache. *)
Inductive json :=
| JNull
| JBool (b : bool)
| JNumber (z : Z)
| JString (s : string)
| JArray (items : list json)
| JObject (fields : list (string * json)).

(** Exceptions.  [Error] is what [new Error(message)] builds; [TypeError]
    is raised by the engine when a property of [undefined] or [null] is
    read; [PlatformError] stands for the rejections and exceptions of
    [fetch], [Response.json], [JSON.parse] and [localStorage]. *)
Inductive js_error :=
| Error (message : string)
| TypeError (reading : string)
| PlatformError (name message : string).

Definition error_name (e : js_error) : string :=
  match e with
  | Error _ => "Error"
  | TypeError _ => "TypeError"
  | PlatformError name _ => name
  end.

Inductive result (A : Type) :=
| Ok (a : A)
| Throw (e : js_error).
Arguments Ok {A} a.
Arguments Throw {A} e.

(** What one HTTP exchange can come to. *)
Inductive body :=
| JsonBody (v : payload)
| MalformedBody (e : js_error).

Inductive http_outcome :=
| NetworkFailure (e : js_error)
| Response (status : Z) (b : body).

(** [response.ok]. *)
Definition response_ok (status : Z) : bool := (200 <=? status) && (status <=? 299).

(** [window.localStorage]: access may throw altogether (storage disabled),
    and [setItem] may throw when the quota is exceeded. *)
Record Storage := {
  disabled : option js_error;
  full : option js_error;
  items : string -> option string
}.

Record World := {
  requests : list string;
  storage : Storage
}.

(** ** Computations with state and exceptions *)

Definition M (A : Type) : Type := World -> result A * World.

Definition ret {A} (a : A) : M A := fun w => (Ok a, w).

Definition throw {A} (e : js_error) : M A := fun w => (Throw e, w).

Definition bind {A B} (m : M A) (k : A -> M B) : M B :=
  fun w =>
    match m w with
    | (Ok a, w') => k a w'
    | (Throw e, w') => (Throw e, w')
    end.

Notation "x <- m ;; k" := (bind m (fun x => k))
  (at level 100, m at next level, right associativity).

(** [try { m } catch { }]: the exception is dropped, the effects stay. *)
Definition try_catch {A} (m : M A) : M (option A) :=
  fun w =>
    match m w with
    | (Ok a, w') => (Ok (Some a), w')
    | (Throw _, w') => (Ok None, w')
    end.

Definition lift {A} (r : result A) : M A := fun w => (r, w).

(** A promise seen through [Promise.allSettled]: fulfilled or rejected, never
    thrown. *)
Definition settle {A} (m : M A) : M (result A) :=
  fun w => let (r, w') := m w in (Ok r, w').

Fixpoint allSettled {A} (ms : list (M A)) : M (list (result A)) :=
  match ms with
  | [] => ret []
  | m :: ms' =>
      r <- settle m ;;
      rs <- allSettled ms' ;;
      ret (r :: rs)
  end.

Definition getItem (key : string) : M (option string) :=
  fun w =>
    match disabled (storage w) with
    | Some e => (Throw e, w)
    | None => (Ok (items (storage w) key), w)
    end.

Definition setItem (key value : string) : M unit :=
  fun w =>
    match disabled (storage w), full (storage w) with
    | Some e, _ => (Throw e, w)
    | None, Some e => (Throw e, w)
    | None, None =>
        (Ok tt,
         {| requests := requests w;
            storage := {| disabled := None; full := None;
                          items := fun k => if String.eqb k key then Some value
                                            else items (storage w) k |} |})
    end.

(** ** The program *)

Definition HISTORY_CACHE_PREFIX : string := "chess-rapid-history-v3".

Definition getUtcRefreshKey (now : Z) : string := JS.slice0 10 (JS.toISOString now).

Definition month_url (username : string) (year month : Z) : string :=
  let mm := JS.padStart 2 "0" (JS.String_of month) in
  "https://api.chess.com/pub/player/" ++ username ++ "/games/" ++
  JS.String_of year ++ "/" ++ mm.

Definition inspect {A} (a : A) : {b : A | a = b} := exist _ a eq_refl.

(** How many iterations the loop of [getMonthUrlsFromJoined] can still make:
    a year change leaves at most eleven increments of the month. *)
Definition months_left (endYear year month : Z) : nat :=
  (12 * Z.to_nat (endYear - year + 1) + Z.to_nat (12 - month))%nat.
Arguments months_left : simpl never.

(** The [while] loop of [getMonthUrlsFromJoined]; the list it returns is what
    the loop pushes onto [urls]. *)
Equations? month_loop (username : string) (endYear endMonth year month : Z) : list string
  by wf (months_left endYear year month) lt :=
  month_loop username endYear endMonth year month with inspect
      ((year <? endYear) || ((year =? endYear) && (month <=? endMonth))) => {
    | exist _ true _ with inspect (12 <? month + 1) => {
        | exist _ true _ :=
            month_url username year month ::
            month_loop username endYear endMonth (year + 1) 1;
        | exist _ false _ :=
            month_url username year month ::
            month_loop username endYear endMonth year (month + 1) };
    | exist _ false _ := [] }.
Proof. all: unfold months_left; lia. Qed.

(** [getMonthUrlsFromJoined(username, joinedEpoch)], with the reading of
    [new Date()] passed as [now].  An invalid start date answers NaN for
    its year and month, every comparison of the loop condition is then
    false and nothing is pushed. *)
Definition getMonthUrlsFromJoined (now : Z) (username : string) (joinedEpoch : js_number)
  : list string :=
  match joinedEpoch with
  | Finite j =>
      let start := JS.TimeClip (j * 1000) in
      match JS.getUTCFullYear start, JS.getUTCMonth start with
      | Some year, Some month0 =>
          let endYear := JS.YearFromTime now in
          let endMonth := JS.MonthFromTime now + 1 in
          month_loop username endYear endMonth year (month0 + 1)
      | _, _ => []
      end
  | _ => []
  end.

(** [monthUrls.slice(i, i + chunkSize)] for [i = 0, chunkSize, ...]: the
    consecutive chunks of the list.  The chunk size is positive (the loop of
    the source does not advance otherwise). *)
Equations? chunks {A : Type} (chunkSize : positive) (l : list A) : list (list A)
  by wf (List.length l) lt :=
  chunks chunkSize [] := [];
  chunks chunkSize (x :: l) :=
    firstn (Pos.to_nat chunkSize) (x :: l) ::
    chunks chunkSize (skipn (Pos.to_nat chunkSize) (x :: l)).
Proof.
  destruct (Pos.to_nat chunkSize) as [|n] eqn:E; [lia|].
  simpl. pose proof (length_skipn n l). lia.
Qed.

(** [Array.isArray(result.value?.games) ? result.value.games : []]. *)
Definition games_or_empty (value : payload) : list game :=
  match value with
  | Some o => match games o with Some gs => gs | None => [] end
  | None => []
  end.

(** The inner [for] loop of [fetchMonthlyArchives] over the settled results
    of one chunk. *)
Definition push_settled (allGames : list game) (settled : list (result payload)) : list game :=
  fold_left
    (fun acc r =>
       match r with
       | Ok value => (acc ++ games_or_empty value)%list
       | Throw _ => acc
       end)
    settled allGames.

(** [game.white?.username?.toLowerCase() === normalizedUsername]. *)
Definition side_is (side : option participant) (normalizedUsername : string) : bool :=
  match side with
  | Some p =>
      match username p with
      | Some u => String.eqb (JS.toLowerCase u) normalizedUsername
      | None => false
      end
  | None => false
  end.

(** [game[color]?.rating] when it passes [typeof rating === "number"]. *)
Definition rating_of (side : option participant) : option Z :=
  match side with
  | Some p => rating p
  | None => None
  end.

(** The callbacks that the program passes to [filter] and [sort]. *)
Definition is_rated_rapid (g : game) : bool :=
  String.eqb (time_class g) "rapid" && rated g.

Definition by_end_time (a b : game) : Z := end_time a - end_time b.

Definition newest_first (a b : game) : Z := end_time b - end_time a.

Definition by_date (a b : sample) : Z := JS.localeCompare (date a) (date b).

(** The [Map] from day to sample, in insertion order. *)
Definition Map_get (m : list (string * sample)) (key : string) : option sample :=
  option_map snd (find (fun kv => String.eqb (fst kv) key) m).

Fixpoint Map_set (m : list (string * sample)) (key : string) (v : sample)
  : list (string * sample) :=
  match m with
  | [] => [(key, v)]
  | (k, old) :: m' =>
      if String.eqb k key then (k, v) :: m' else (k, old) :: Map_set m' key v
  end.

Definition Map_values (m : list (string * sample)) : list sample := map snd m.

(** [.username.toLowerCase()] without guard: reading a property of
    [undefined] throws. *)
Definition username_lower (side : option participant) : result string :=
  match side with
  | None => Throw (TypeError "username")
  | Some p =>
      match username p with
      | None => Throw (TypeError "toLowerCase")
      | Some u => Ok (JS.toLowerCase u)
      end
  end.

(** The callback that [fetchGamesBetween] passes to [filter]. *)
Definition is_mutual (p1 p2 : string) (g : game) : result bool :=
  if negb (String.eqb (time_class g) "rapid") || negb (rated g) then Ok false
  else
    match username_lower (white g) with
    | Throw e => Throw e
    | Ok w =>
        match username_lower (black g) with
        | Throw e => Throw e
        | Ok b =>
            Ok ((String.eqb w p1 && String.eqb b p2) || (String.eqb w p2 && String.eqb b p1))
        end
    end.

(** [Array.prototype.filter] with a callback that may throw. *)
Fixpoint filter_throwing {A} (f : A -> result bool) (l : list A) : result (list A) :=
  match l with
  | [] => Ok []
  | x :: l' =>
      match f x with
      | Throw e => Throw e
      | Ok keep =>
          match filter_throwing f l' with
          | Throw e => Throw e
          | Ok kept => Ok (if keep then x :: kept else kept)
          end
      end
  end.

(** [JSON.stringify] input for a sample and for a cache entry. *)
Definition json_of_sample (s : sample) : json :=
  JObject [("date", JString (date s)); ("rating", JNumber (sample_rating s));
           ("epoch", JNumber (epoch s))].

(** [value?.[key]] on a parsed JSON value: only objects have the fields the
    program asks for. *)
Definition get_field (v : json) (key : string) : option json :=
  match v with
  | JObject fields => option_map snd (find (fun kv => String.eqb (fst kv) key) fields)
  | _ => None
  end.

(** [(...).archives || []]: reading [archives] of a [null] body throws. *)
Definition archives_or_empty (value : payload) : result (list string) :=
  match value with
  | None => Throw (TypeError "archives")
  | Some o => Ok (match archives o with Some a => a | None => [] end)
  end.

(** [profileData?.joined]. *)
Definition joined_of (profileData : payload) : js_number :=
  match profileData with
  | Some o => joined o
  | None => Absent
  end.

Section Program.

(** The remote side: what the exchange for a URL comes to, given the
    requests issued before it. *)
Variable server : list string -> string -> http_outcome.

(** The wall clock in milliseconds, read when the given requests have been
    issued. *)
Variable clock : list string -> Z.

(** [toIsoDate] of [../utils/formatting], which maps [end_time] to the
    calendar-day string. *)
Variable toIsoDate : Z -> string.

(** [JSON.parse] ([None] when it throws) and [JSON.stringify]. *)
Variable JSON_parse : string -> option json.
Variable JSON_stringify : json -> string.

Definition Date_now : M Z := fun w => (Ok (clock (requests w)), w).

(** [fetchJson(url)]. *)
Definition fetchJson (url : string) : M payload :=
  fun w =>
    let w' := {| requests := (requests w ++ [url])%list; storage := storage w |} in
    match server (requests w) url with
    | NetworkFailure e => (Throw e, w')
    | Response status b =>
        if negb (response_ok status) then
          (Throw (Error ("Request failed (" ++ JS.String_of status ++ ") for " ++ url)), w')
        else
          match b with
          | JsonBody v => (Ok v, w')
          | MalformedBody e => (Throw e, w')
          end
    end.

(** The outer [for] loop of [fetchMonthlyArchives]. *)
Fixpoint fetch_chunks (cs : list (list string)) (allGames : list game) : M (list game) :=
  match cs with
  | [] => ret allGames
  | chunk :: rest =>
      settled <- allSettled (map fetchJson chunk) ;;
      fetch_chunks rest (push_settled allGames settled)
  end.

(** [fetchMonthlyArchives(monthUrls, chunkSize = 8)]. *)
Definition fetchMonthlyArchives (monthUrls : list string) (chunkSize : positive) : M (list game) :=
  fetch_chunks (chunks chunkSize monthUrls) [].

(** The body of the [for] loop over [rapidGames] in [fetchRapidHistory]. *)
Definition history_step (normalizedUsername : string)
  (historyMap : list (string * sample)) (g : game) : list (string * sample) :=
  let isWhite := side_is (white g) normalizedUsername in
  let isBlack := side_is (black g) normalizedUsername in
  let color := if isWhite then Some (white g) else if isBlack then Some (black g) else None in
  match color with
  | None => historyMap
  | Some side =>
      match rating_of side with
      | None => historyMap
      | Some r =>
          let d := toIsoDate (end_time g) in
          match Map_get historyMap d with
          | None =>
              Map_set historyMap d {| date := d; sample_rating := r; epoch := end_time g |}
          | Some previous =>
              if epoch previous <? end_time g then
                Map_set historyMap d {| date := d; sample_rating := r; epoch := end_time g |}
              else historyMap
          end
      end
  end.

(** Lines 92 to 114 of [fetchRapidHistory]: from the merged games to the
    history series. *)
Definition reduceHistory (normalizedUsername : string) (monthlyGames : list game)
  : list sample :=
  let rapidGames := JS.sort by_end_time (filter is_rated_rapid monthlyGames) in
  let historyMap := fold_left (history_step normalizedUsername) rapidGames [] in
  JS.sort by_date (Map_values historyMap).

(** The [try] block that reads the cache; [None] when nothing usable is
    stored. *)
Definition read_cache (cacheKey refreshKey : string) : M (option (list json)) :=
  cachedRaw <- getItem cacheKey ;;
  match cachedRaw with
  | None | Some EmptyString => ret None
  | Some raw =>
      match JSON_parse raw with
      | None => throw (PlatformError "SyntaxError" raw)
      | Some cached =>
          match get_field cached "refreshKey", get_field cached "history" with
          | Some (JString k), Some (JArray h) =>
              if String.eqb k refreshKey then ret (Some h) else ret None
          | _, _ => ret None
          end
      end
  end.

(** The planning steps shared by both entry points: the profile, the month
    URLs and the fall-back to the archive index. *)
Definition plan_archives (normalizedUsername : string) : M (list string) :=
  profileData <- fetchJson ("https://api.chess.com/pub/player/" ++ normalizedUsername) ;;
  now <- Date_now ;;
  let monthUrls := getMonthUrlsFromJoined now normalizedUsername (joined_of profileData) in
  if (0 <? List.length monthUrls)%nat then ret monthUrls
  else
    index <- fetchJson ("https://api.chess.com/pub/player/" ++ normalizedUsername ++
                        "/games/archives") ;;
    lift (archives_or_empty index).

(** [fetchRapidHistory] from line 81 on: what runs when the cache gave
    nothing. *)
Definition recompute_history (normalizedUsername cacheKey refreshKey : string)
  : M (list json) :=
  fallbackArchives <- plan_archives normalizedUsername ;;
  monthlyGames <- fetchMonthlyArchives fallbackArchives 8 ;;
  let history := reduceHistory normalizedUsername monthlyGames in
  savedAt <- Date_now ;;
  _ <- try_catch
         (setItem cacheKey
            (JSON_stringify
               (JObject [("refreshKey", JString refreshKey);
                         ("history", JArray (map json_of_sample history));
                         ("savedAt", JString (JS.toISOString savedAt))]))) ;;
  ret (map json_of_sample history).

(** [fetchRapidHistory(username)]. *)
Definition fetchRapidHistory (username : string) : M (list json) :=
  let normalizedUsername := JS.toLowerCase username in
  let cacheKey := HISTORY_CACHE_PREFIX ++ ":" ++ normalizedUsername in
  now <- Date_now ;;
  let refreshKey := getUtcRefreshKey now in
  cached <- try_catch (read_cache cacheKey refreshKey) ;;
  match cached with
  | Some (Some history) => ret history
  | _ => recompute_history normalizedUsername cacheKey refreshKey
  end.

(** [fetchGamesBetween(player1, player2)]. *)
Definition fetchGamesBetween (player1 player2 : string) : M (list game) :=
  let p1 := JS.toLowerCase player1 in
  let p2 := JS.toLowerCase player2 in
  archives <- plan_archives p1 ;;
  allGames <- fetchMonthlyArchives archives 8 ;;
  mutualGames <- lift (filter_throwing (is_mutual p1 p2) allGames) ;;
  ret (JS.sort newest_first mutualGames).

End Program.

(** Modelled from the spec: [toIsoDate] of [../utils/formatting] is not among
    the sources at hand.  The spec describes it as the UTC-derived ISO
    calendar-day string of [end_time], an epoch in seconds. *)
Definition toIsoDate_utc (end_time : Z) : string :=
  JS.slice0 10 (JS.toISOString (end_time * 1000)).

(** ** Calendar months as the planner enumerates them *)

(** Months counted from January of year 0. *)
Definition month_index (year month : Z) : Z := 12 * year + (month - 1).

Definition month_at (i : Z) : Z * Z := (i / 12, i mod 12 + 1).

(** The [n] consecutive months that start at month number [s]. *)
Definition months_from (s : Z) (n : nat) : list (Z * Z) :=
  map (fun k => month_at (s + Z.of_nat k)) (seq 0 n).

(** ** What the fetcher is expected to return *)

(** The world after the given requests have been issued. *)
Definition logged (w : World) (urls : list string) : World :=
  {| requests := (requests w ++ urls)%list; storage := storage w |}.

(** What a response contributes to [allGames]. *)
Definition outcome_games (o : http_outcome) : list game :=
  match o with
  | Response status (JsonBody v) => if response_ok status then games_or_empty v else []
  | _ => []
  end.

(** The games of the successful exchanges for [urls], requested one after
    the other from the log [log]. *)
Fixpoint archive_games (server : list string -> string -> http_outcome)
  (log : list string) (urls : list string) : list game :=
  match urls with
  | [] => []
  | u :: us => (outcome_games (server log u) ++ archive_games server (log ++ [u]) us)%list
  end.


(** ** What the reducer is expected to return *)

(** The side of the game that the handle plays, white being looked at
    first. *)
Definition matched_side (normalizedUsername : string) (g : game)
  : option (option participant) :=
  if side_is (white g) normalizedUsername then Some (white g)
  else if side_is (black g) normalizedUsername then Some (black g)
  else None.

(** The sample that a game offers to the history: none unless the game is a
    rated rapid game of the handle with a numeric rating on the handle's
    side. *)
Definition candidate (toIsoDate : Z -> string) (normalizedUsername : string) (g : game)
  : option sample :=
  if String.eqb (time_class g) "rapid" && rated g then
    match matched_side normalizedUsername g with
    | Some side =>
        match rating_of side with
        | Some r =>
            Some {| date := toIsoDate (end_time g); sample_rating := r; epoch := end_time g |}
        | None => None
        end
    | None => None
    end
  else None.

(** A game that must not count: unrated, of another time class, not played
    by the handle, or without a numeric rating on the handle's side. *)
Definition disqualified (normalizedUsername : string) (g : game) : Prop :=
  rated g = false \/
  time_class g <> "rapid" \/
  (side_is (white g) normalizedUsername = false /\
   side_is (black g) normalizedUsername = false) \/
  (exists side, matched_side normalizedUsername g = Some side /\ rating_of side = None).

(** Of two samples of one day, the later one; the earlier-listed one when
    they are equally late. *)
Definition later_of (first : sample) (second : option sample) : sample :=
  match second with
  | Some b => if epoch first <? epoch b then b else first
  | None => first
  end.

(** The sample that day [d] should end up with: that of the latest
    qualifying game of the day, the first such game in input order when
    several are equally late. *)
Fixpoint day_best (offer : game -> option sample) (d : string) (gs : list game)
  : option sample :=
  match gs with
  | [] => None
  | g :: rest =>
      match offer g with
      | Some s =>
          if String.eqb (date s) d then Some (later_of s (day_best offer d rest))
          else day_best offer d rest
      | None => day_best offer d rest
      end
  end.

(** What the map holds for a day once the games after a stored sample have
    been seen. *)
Definition merge_day (stored rest : option sample) : option sample :=
  match stored with
  | None => rest
  | Some p => Some (later_of p rest)
  end.

(** The update that the loop of [fetchRapidHistory] makes for a game that
    offers the sample [s]. *)
Definition upsert (historyMap : list (string * sample)) (s : sample)
  : list (string * sample) :=
  match Map_get historyMap (date s) with
  | None => Map_set historyMap (date s) s
  | Some previous =>
      if epoch previous <? epoch s then Map_set historyMap (date s) s else historyMap
  end.

(** The entry of a history series for a day. *)
Definition sample_on (d : string) (history : list sample) : option sample :=
  find (fun s => String.eqb (date s) d) history.

(** The ASCII digits and the hyphen. *)
Definition is_digit (c : ascii) : bool :=
  (48 <=? nat_of_ascii c)%nat && (nat_of_ascii c <=? 57)%nat.

Definition is_hyphen (c : ascii) : bool := Ascii.eqb c (ascii_of_nat 45).

(** A calendar-day string [YYYY-MM-DD] of the years 0 to 9999: ten
    characters, ASCII digits but for the hyphens at positions 4 and 7. *)
Definition iso_day (s : string) : bool :=
  match list_ascii_of_string s with
  | [y1; y2; y3; y4; h1; m1; m2; h2; d1; d2] =>
      is_digit y1 && is_digit y2 && is_digit y3 && is_digit y4 && is_hyphen h1 &&
      is_digit m1 && is_digit m2 && is_hyphen h2 && is_digit d1 && is_digit d2
  | _ => false
  end.

(** Dates in strictly increasing code-unit order. *)
Definition date_lt (a b : sample) : Prop := String.compare (date a) (date b) = Lt.

(** ** Sample data for the scenarios *)

Definition player (name : string) (r : Z) : option participant :=
  Some {| username := Some name; rating := Some r |}.

Definition rated_rapid (t : Z) (w b : option participant) : game :=
  {| end_time := t; time_class := "rapid"; rated := true; white := w; black := b |}.

(** ** What the cache is expected to hold *)

(** The history that a store offers for a key on the day [refreshKey]: the
    store must be readable and hold, under the key, a non-empty text that
    parses to an object whose [refreshKey] is that day and whose [history]
    is an array. *)
Definition usable_entry (JSON_parse : string -> option json) (st : Storage)
  (cacheKey refreshKey : string) : option (list json) :=
  match disabled st with
  | Some _ => None
  | None =>
      match items st cacheKey with
      | None => None
      | Some raw =>
          if String.eqb raw "" then None
          else
            match JSON_parse raw with
            | None => None
            | Some cached =>
                match get_field cached "refreshKey", get_field cached "history" with
                | Some (JString k), Some (JArray h) =>
                    if String.eqb k refreshKey then Some h else None
                | _, _ => None
                end
            end
      end
  end.

(** The key under which the history of a handle is cached. *)
Definition cache_key (username : string) : string :=
  HISTORY_CACHE_PREFIX ++ ":" ++ JS.toLowerCase username.

(** The head-to-head test in the words of the specification: a rated rapid
    game whose two lower-cased usernames are the two handles, in either
    colour assignment. *)
Definition mutual (p1 p2 : string) (g : game) : bool :=
  String.eqb (time_class g) "rapid" && rated g &&
  match white g, black g with
  | Some w, Some b =>
      match username w, username b with
      | Some wu, Some bu =>
          (String.eqb (JS.toLowerCase wu) p1 && String.eqb (JS.toLowerCase bu) p2) ||
          (String.eqb (JS.toLowerCase wu) p2 && String.eqb (JS.toLowerCase bu) p1)
      | _, _ => false
      end
  | _, _ => false
  end.

(** Both sides of the game are present and named. *)
Definition has_usernames (g : game) : Prop :=
  (exists w wu, white g = Some w /\ username w = Some wu) /\
  (exists b bu, black g = Some b /\ username b = Some bu).

(** A side that is missing or has no username. *)
Definition unnamed (side : option participant) : Prop :=
  side = None \/ exists p, side = Some p /\ username p = None.

Definition lacks_username (g : game) : Prop := unnamed (white g) \/ unnamed (black g).

(** A remote side for the scenarios: the profile of "p1" has no usable
    [joined], the archive index lists one month, and that month holds the
    given games; every other URL answers 404. *)
Definition scenario_server (month : list game) : list string -> string -> http_outcome :=
  fun _ url =>
    if String.eqb url "https://api.chess.com/pub/player/p1" then
      Response 200 (JsonBody (Some {| joined := Absent; archives := None; games := None |}))
    else if String.eqb url "https://api.chess.com/pub/player/p1/games/archives" then
      Response 200
        (JsonBody (Some {| joined := Absent;
                           archives := Some ["https://api.chess.com/pub/player/p1/games/2024/03"];
                           games := None |}))
    else if String.eqb url "https://api.chess.com/pub/player/p1/games/2024/03" then
      Response 200 (JsonBody (Some {| joined := Absent; archives := None; games := Some month |}))
    else Response 404 (JsonBody None).

(** The three requests that a run against [scenario_server] issues. *)
Definition scenario_requests : list string :=
  ["https://api.chess.com/pub/player/p1";
   "https://api.chess.com/pub/player/p1/games/archives";
   "https://api.chess.com/pub/player/p1/games/2024/03"].

(** Noon of 2024-03-05, in milliseconds. *)
Definition scenario_clock : list string -> Z := fun _ => 1709640000123.

(** A store that holds one text under the cache key of "p1". *)
Definition scenario_store (raw : string) (full_error : option js_error) : Storage :=
  {| disabled := None;
     full := full_error;
     items := fun k => if String.eqb k "chess-rapid-history-v3:p1" then Some raw else None |}.

(** A parser that knows two texts: an entry saved on 2024-03-05 and one saved
    the day before. *)
Definition scenario_parse (raw : string) : option json :=
  if String.eqb raw "today" then
    Some (JObject [("refreshKey", JString "2024-03-05");
                   ("history", JArray [JNumber 7]);
                   ("savedAt", JString "2024-03-05T08:00:00.000Z")])
  else if String.eqb raw "yesterday" then
    Some (JObject [("refreshKey", JString "2024-03-04");
                   ("history", JArray [JNumber 7]);
                   ("savedAt", JString "2024-03-04T08:00:00.000Z")])
  else None.

Definition scenario_stringify (v : json) : string := "entry".

(** ** Reading a refresh key back *)

(** The date part of [toISOString] for a day number. *)
Definition iso_date (days : Z) : string :=
  let '(y, m, d) := JS.civil_from_days days in
  JS.iso_year y ++ "-" ++ JS.pad 2 m ++ "-" ++ JS.pad 2 d.

(** The number that a string of decimal digits denotes. *)
Definition digits_value (s : string) : option Z :=
  option_map Z.of_uint (NilEmpty.uint_of_string s).

(** [pad n] on the numbers below [bound] gives [n] characters that denote
    the number. *)
Definition pad_reads_back (n : nat) (bound : Z) : bool :=
  forallb
    (fun i =>
       let v := Z.of_nat i in
       Nat.eqb (String.length (JS.pad n v)) n &&
       match digits_value (JS.pad n v) with
       | Some v' => v' =? v
       | None => false
       end)
    (seq 0 (Z.to_nat bound)).

(** ** The two planning requests *)

Definition profile_url (normalizedUsername : string) : string :=
  "https://api.chess.com/pub/player/" ++ normalizedUsername.

Definition index_url (normalizedUsername : string) : string :=
  "https://api.chess.com/pub/player/" ++ normalizedUsername ++ "/games/archives".

(** What [fetchJson] makes of an exchange. *)
Definition fetched (url : string) (o : http_outcome) : result payload :=
  match o with
  | NetworkFailure e => Throw e
  | Response status b =>
      if response_ok status then
        match b with
        | JsonBody v => Ok v
        | MalformedBody e => Throw e
        end
      else Throw (Error ("Request failed (" ++ JS.String_of status ++ ") for " ++ url))
  end.

(** ** A remote side and a store for the planning and cache scenarios *)

(** The profile of "bob" reports the join date 2023-11-15; nothing else is
    served. *)
Definition bob_server : list string -> string -> http_outcome :=
  fun _ url =>
    if String.eqb url "https://api.chess.com/pub/player/bob" then
      Response 200
        (JsonBody (Some {| joined := Finite 1700006400; archives := None; games := None |}))
    else Response 404 (JsonBody None).

(** 2024-01-10, in milliseconds. *)
Definition january_clock : list string -> Z := fun _ => 1704844800000.

(** The cache entry that a run against [scenario_server] writes at
    [scenario_clock] for the series of one sample. *)
Definition scenario_entry : json :=
  JObject [("refreshKey", JString "2024-03-05");
           ("history",
            JArray [json_of_sample
                      {| date := "2024-03-05"; sample_rating := 1510; epoch := 1709650000 |}]);
           ("savedAt", JString "2024-03-05T12:00:00.123Z")].

(** A parser that reads back what [scenario_stringify] writes. *)
Definition scenario_parse_entry (raw : string) : option json :=
  if String.eqb raw "entry" then Some scenario_entry else None.

(** The store after [setItem(key, value)] has succeeded. *)
Definition store_with (st : Storage) (key value : string) : Storage :=
  {| disabled := None;
     full := None;
     items := fun k => if String.eqb k key then Some value else items st k |}.

(** The entry that [fetchRapidHistory] writes. *)
Definition cache_entry (refreshKey : string) (history : list sample) (savedAt : Z) : json :=
  JObject [("refreshKey", JString refreshKey);
           ("history", JArray (map json_of_sample history));
           ("savedAt", JString (JS.toISOString savedAt))].

(** ** The row splitter of the CSV import ([splitRow] in [parseCSV]) *)

(** The double quote and the comma. *)
Definition quote : ascii := ascii_of_nat 34.
Definition comma : ascii := ascii_of_nat 44.

(** White space as [String.prototype.trim] sees it, on the ASCII range: tab,
    line feed, vertical tab, form feed, carriage return and space. *)
Definition is_space (c : ascii) : bool :=
  let n := nat_of_ascii c in
  Nat.eqb n 32 || (Nat.leb 9 n && Nat.leb n 13).

Fixpoint trimStart (s : string) : string :=
  match s with
  | EmptyString => EmptyString
  | String c rest => if is_space c then trimStart rest else s
  end.

Fixpoint trimEnd (s : string) : string :=
  match s with
  | EmptyString => EmptyString
  | String c rest =>
      match trimEnd rest with
      | EmptyString => if is_space c then EmptyString else String c EmptyString
      | kept => String c kept
      end
  end.

Definition trim (s : string) : string := trimEnd (trimStart s).

(** The variables of the loop: [cols], [current] and [inQuotes]. *)
Record row_state := {
  cols : list string;
  current : string;
  inQuotes : bool
}.

(** The body of [for (const ch of line)]. *)
Definition splitRow_step (st : row_state) (ch : ascii) : row_state :=
  if Ascii.eqb ch quote then
    {| cols := cols st; current := current st; inQuotes := negb (inQuotes st) |}
  else if Ascii.eqb ch comma && negb (inQuotes st) then
    {| cols := (cols st ++ [trim (current st)])%list; current := EmptyString;
       inQuotes := inQuotes st |}
  else
    {| cols := cols st; current := current st ++ String ch EmptyString;
       inQuotes := inQuotes st |}.

(** [splitRow(line)]. *)
Definition splitRow (line : string) : list string :=
  let st :=
    fold_left splitRow_step (list_ascii_of_string line)
      {| cols := []; current := EmptyString; inQuotes := false |} in
  (cols st ++ [trim (current st)])%list.

(** A comma separates when an even number of quotes stands before it. *)
Definition separator_at (chars : list ascii) (i : nat) : bool :=
  match nth_error chars i with
  | Some c => Ascii.eqb c comma && Nat.even (count_occ ascii_dec (firstn i chars) quote)
  | None => false
  end.

Definition separators (chars : list ascii) : nat :=
  List.length (filter (separator_at chars) (seq 0 (List.length chars))).

(** The positions of the separating commas of a line, in increasing order. *)
Definition separator_positions (chars : list ascii) : list nat :=
  filter (separator_at chars) (seq 0 (List.length chars)).

(** The pieces of a line between the given positions: from [start] up to the
    first position, then from just after each position up to the next, and
    last from just after the final position to the end of the line. *)
Fixpoint slices (chars : list ascii) (start : nat) (positions : list nat)
  : list (list ascii) :=
  match positions with
  | [] => [skipn start chars]
  | p :: rest => firstn (p - start) (skipn start chars) :: slices chars (S p) rest
  end.

(** What [splitRow] keeps of a piece: its characters other than quotes,
    trimmed. *)
Definition column_of (piece : list ascii) : string :=
  trim (string_of_list_ascii (remove ascii_dec quote piece)).

(** The separating commas when the scan starts inside quotes ([q] true) or
    outside ([q] false). *)
Definition separator_from (q : bool) (chars : list ascii) (i : nat) : bool :=
  match nth_error chars i with
  | Some c =>
      Ascii.eqb c comma &&
      Bool.eqb (Nat.even (count_occ ascii_dec (firstn i chars) quote)) (negb q)
  | None => false
  end.

(** A piece continued at its front by the characters read before it. *)
Definition prepend (front : list ascii) (pieces : list (list ascii))
  : list (list ascii) :=
  match pieces with
  | [] => [front]
  | piece :: rest => (front ++ piece)%list :: rest
  end.

(** ** Manual entries of the portfolio tracker ([addEntry], [deleteEntry]) *)

(** [inputBalance.replace(/[$,]/g, "")]: the text without dollar signs and
    commas. *)
Fixpoint strip_money (s : string) : string :=
  match s with
  | EmptyString => EmptyString
  | String c rest =>
      if Ascii.eqb c (ascii_of_nat 36) || Ascii.eqb c comma then strip_money rest
      else String c (strip_money rest)
  end.

Section Entries.

(** JavaScript numbers stay abstract: [parseFloat] answers [None] for NaN, and
    [at_most_zero] is the test [bal <= 0]. *)
Variable number : Type.
Variable parseFloat : string -> option number.
Variable at_most_zero : number -> bool.

(** An entry [{ date, balance }] of the tracker. *)
Record entry := {
  entry_date : string;
  balance : number
}.

(** [deleteEntry(date)]: the new value of [entries]. *)
Definition deleteEntry (entries : list entry) (d : string) : list entry :=
  filter (fun e => negb (String.eqb (entry_date e) d)) entries.

(** [addEntry()]: the new value of [entries], or [None] when the function
    returns without setting it. *)
Definition addEntry (entries : list entry) (inputDate inputBalance : string)
  : option (list entry) :=
  match parseFloat (strip_money inputBalance) with
  | None => None
  | Some bal =>
      if String.eqb inputDate "" || at_most_zero bal then None
      else
        Some (filter (fun e => negb (String.eqb (entry_date e) inputDate)) entries ++
              [{| entry_date := inputDate; balance := bal |}])%list
  end.

End Entries.

Arguments entry_date {number} e.
Arguments balance {number} e.
Arguments deleteEntry {number} entries d.

(** * Properties *)

(** ** Dates *)

Lemma civil_month_range days :
  1 <= snd (fst (JS.civil_from_days days)) <= 12.
Proof.
  unfold JS.civil_from_days. cbv zeta. cbn [fst snd].
  set (z := days + 719468).
  set (era := z / 146097).
  set (doe := z - era * 146097).
  assert (Hdoe : 0 <= doe < 146097).
  { subst doe era. Z.div_mod_to_equations. lia. }
  clearbody doe. clear z era.
  set (yoe := (doe - doe / 1460 + doe / 36524 - doe / 146096) / 365).
  set (doy := doe - (365 * yoe + yoe / 4 - yoe / 100)).
  assert (Hdoy : 0 <= doy <= 365).
  { subst doy yoe. Z.div_mod_to_equations. lia. }
  clearbody doy. clear yoe.
  assert (Hmp : 0 <= (5 * doy + 2) / 153 <= 11) by (Z.div_mod_to_equations; lia).
  destruct ((5 * doy + 2) / 153 <? 10) eqn:E; lia.
Qed.

(** The calendar is the Gregorian one: the date of a day number has that day
    number. *)
Lemma days_from_civil_round_trip days :
  let '(y, m, d) := JS.civil_from_days days in JS.days_from_civil y m d = days.
Proof.
  unfold JS.civil_from_days. cbv zeta.
  set (z := days + 719468).
  set (era := z / 146097).
  set (doe := z - era * 146097).
  assert (Hdoe : 0 <= doe < 146097) by (subst doe era; Z.div_mod_to_equations; lia).
  assert (Hz : days = era * 146097 + doe - 719468) by (subst doe z; lia).
  clearbody doe era. clear z. subst days.
  set (yoe := (doe - doe / 1460 + doe / 36524 - doe / 146096) / 365).
  assert (Hyoe : 0 <= yoe <= 399) by (subst yoe; Z.div_mod_to_equations; lia).
  set (doy := doe - (365 * yoe + yoe / 4 - yoe / 100)).
  assert (Hdoy : 0 <= doy <= 365) by (subst doy yoe; Z.div_mod_to_equations; lia).
  assert (Hdoe2 : doe = 365 * yoe + yoe / 4 - yoe / 100 + doy) by (subst doy; lia).
  clearbody doy yoe.
  set (mp := (5 * doy + 2) / 153).
  assert (Hmp : 0 <= mp <= 11) by (subst mp; Z.div_mod_to_equations; lia).
  unfold JS.days_from_civil.
  destruct (Z.ltb_spec mp 10).
  - destruct (Z.leb_spec (mp + 3) 2); [lia|].
    destruct (Z.ltb_spec 2 (mp + 3)); [|lia].
    cbv zeta.
    replace ((yoe + era * 400) / 400) with era by (Z.div_mod_to_equations; lia).
    replace (yoe + era * 400 - era * 400) with yoe by lia.
    replace (mp + 3 - 3) with mp by lia.
    subst mp. Z.div_mod_to_equations. lia.
  - destruct (Z.leb_spec (mp - 9) 2); [|lia].
    destruct (Z.ltb_spec 2 (mp - 9)); [lia|].
    cbv zeta. subst mp. Z.div_mod_to_equations. lia.
Qed.

Example epoch_day : JS.civil_from_days 0 = (1970, 1, 1).
Proof. reflexivity. Qed.

Example leap_day_2024 :
  JS.civil_from_days (JS.days_from_civil 2024 2 29) = (2024, 2, 29) /\
  JS.civil_from_days (JS.days_from_civil 2024 2 29 + 1) = (2024, 3, 1).
Proof. split; reflexivity. Qed.

Example noon_2024_03_05 :
  JS.days_from_civil 2024 3 5 * 86400 + 12 * 3600 = 1709640000 /\
  JS.toISOString 1709640000123 = "2024-03-05T12:00:00.123Z".
Proof. split; vm_compute; reflexivity. Qed.

Example toIsoDate_utc_days :
  toIsoDate_utc 100 = "1970-01-01" /\ toIsoDate_utc 200 = "1970-01-01" /\
  toIsoDate_utc 1709640000 = "2024-03-05" /\ toIsoDate_utc (-1) = "1969-12-31".
Proof. repeat split; vm_compute; reflexivity. Qed.

Example toLowerCase_handle : JS.toLowerCase "JustMatt1337" = "justmatt1337".
Proof. reflexivity. Qed.

Lemma MonthFromTime_range t : 0 <= JS.MonthFromTime t <= 11.
Proof. unfold JS.MonthFromTime. pose proof (civil_month_range (JS.Day t)). lia. Qed.

Lemma month_at_index year month :
  1 <= month <= 12 -> month_at (month_index year month) = (year, month).
Proof.
  intros H. unfold month_at, month_index. f_equal; Z.div_mod_to_equations; lia.
Qed.

Lemma month_at_range i : 1 <= snd (month_at i) <= 12.
Proof. unfold month_at. cbn [snd]. Z.div_mod_to_equations. lia. Qed.

Lemma month_index_at i : month_index (fst (month_at i)) (snd (month_at i)) = i.
Proof. unfold month_at, month_index. cbn [fst snd]. Z.div_mod_to_equations. lia. Qed.

(** ** The archive planner *)

Lemma month_loop_body username endYear endMonth year month :
  month_loop username endYear endMonth year month =
  if (year <? endYear) || ((year =? endYear) && (month <=? endMonth)) then
    month_url username year month ::
    (if 12 <? month + 1 then month_loop username endYear endMonth (year + 1) 1
     else month_loop username endYear endMonth year (month + 1))
  else [].
Proof.
  funelim (month_loop username endYear endMonth year month);
    repeat match goal with
           | e : ?c = _ |- context [if ?c then _ else _] => rewrite e
           end; reflexivity.
Qed.

Lemma months_from_S s n :
  months_from s (S n) = month_at s :: months_from (s + 1) n.
Proof.
  unfold months_from. cbn [seq map]. rewrite Z.add_0_r. f_equal.
  rewrite <- seq_shift, map_map. apply map_ext. intros k. f_equal. lia.
Qed.

Lemma month_loop_spec username endYear endMonth n :
  1 <= endMonth <= 12 ->
  forall year month,
    1 <= month <= 12 ->
    n = Z.to_nat (month_index endYear endMonth - month_index year month + 1) ->
    month_loop username endYear endMonth year month =
    map (fun ym => month_url username (fst ym) (snd ym))
        (months_from (month_index year month) n).
Proof.
  intros He. induction n as [|n IH]; intros year month Hm Hn;
    rewrite month_loop_body; unfold month_index in Hn.
  - replace ((year <? endYear) || ((year =? endYear) && (month <=? endMonth)))
      with false by (symmetry; apply orb_false_iff; split;
                     [|apply andb_false_iff]; lia).
    reflexivity.
  - replace ((year <? endYear) || ((year =? endYear) && (month <=? endMonth)))
      with true by (symmetry; apply orb_true_iff;
                    destruct (Z.ltb_spec year endYear); [left; reflexivity|right];
                    apply andb_true_iff; lia).
    rewrite months_from_S. cbn [map]. rewrite (month_at_index _ _ Hm). cbn [fst snd].
    f_equal.
    destruct (Z.ltb_spec 12 (month + 1)).
    + rewrite (IH (year + 1) 1) by (unfold month_index; lia).
      do 2 f_equal. unfold month_index. lia.
    + rewrite (IH year (month + 1)) by (unfold month_index; lia).
      do 2 f_equal. unfold month_index. lia.
Qed.

Lemma months_from_sorted s n :
  StronglySorted (fun a b => month_index (fst a) (snd a) < month_index (fst b) (snd b))
    (months_from s n).
Proof.
  revert s. induction n as [|n IH]; intros s.
  - constructor.
  - rewrite months_from_S. constructor; [apply IH|].
    apply Forall_forall. intros ym Hin. unfold months_from in Hin.
    apply in_map_iff in Hin. destruct Hin as [k [<- _]].
    rewrite !month_index_at. lia.
Qed.

Lemma months_from_nth s n k :
  (k < n)%nat -> nth_error (months_from s n) k = Some (month_at (s + Z.of_nat k)).
Proof.
  intros H. unfold months_from.
  rewrite nth_error_map, nth_error_seq.
  apply Nat.ltb_lt in H. rewrite H. reflexivity.
Qed.

Lemma pad_month_two_digits m :
  1 <= m <= 12 -> String.length (JS.padStart 2 "0" (JS.String_of m)) = 2%nat.
Proof.
  intros H.
  assert (E : m = 1 \/ m = 2 \/ m = 3 \/ m = 4 \/ m = 5 \/ m = 6 \/ m = 7 \/ m = 8 \/
              m = 9 \/ m = 10 \/ m = 11 \/ m = 12) by lia.
  repeat (destruct E as [-> | E]; [reflexivity|]). subst m. reflexivity.
Qed.

Lemma getMonthUrlsFromJoined_invalid_date now username j :
  JS.TimeClip (j * 1000) = None ->
  getMonthUrlsFromJoined now username (Finite j) = [].
Proof. intros H. unfold getMonthUrlsFromJoined. rewrite H. reflexivity. Qed.

(** C2.  The archive planner.  A [joinedEpoch] that is not a finite number
    gives no URL.  For a finite one that denotes a date, let [s] be the join
    month and [e] the current month (both UTC): when [s <= e] the result is
    the URL of every month from [s] to [e], one each, first the join month,
    last the current month, in strictly increasing order of month, each with
    a two-character month field; when [e < s] the result is empty. *)
Theorem getMonthUrlsFromJoined_plan now username joinedEpoch :
  (Number_isFinite joinedEpoch = false ->
   getMonthUrlsFromJoined now username joinedEpoch = []) /\
  (forall j,
     joinedEpoch = Finite j ->
     JS.TimeClip (j * 1000) = Some (j * 1000) ->
     let joinYear := JS.YearFromTime (j * 1000) in
     let joinMonth := JS.MonthFromTime (j * 1000) + 1 in
     let endYear := JS.YearFromTime now in
     let endMonth := JS.MonthFromTime now + 1 in
     let s := month_index joinYear joinMonth in
     let e := month_index endYear endMonth in
     let months := months_from s (Z.to_nat (e - s + 1)) in
     (s <= e ->
      getMonthUrlsFromJoined now username joinedEpoch =
        map (fun ym => month_url username (fst ym) (snd ym)) months /\
      Z.of_nat (List.length months) = e - s + 1 /\
      nth_error months 0 = Some (joinYear, joinMonth) /\
      nth_error months (Z.to_nat (e - s)) = Some (endYear, endMonth) /\
      StronglySorted
        (fun a b => month_index (fst a) (snd a) < month_index (fst b) (snd b)) months /\
      Forall (fun ym => String.length (JS.padStart 2 "0" (JS.String_of (snd ym))) = 2%nat)
        months) /\
     (e < s -> getMonthUrlsFromJoined now username joinedEpoch = [])).
Proof.
  split.
  - destruct joinedEpoch; cbn; intros H; try reflexivity. discriminate.
  - intros j -> Hclip joinYear joinMonth endYear endMonth s e months.
    pose proof (MonthFromTime_range (j * 1000)) as Hj.
    pose proof (MonthFromTime_range now) as Hn.
    assert (Hrun : getMonthUrlsFromJoined now username (Finite j) =
                   map (fun ym => month_url username (fst ym) (snd ym)) months).
    { unfold getMonthUrlsFromJoined. rewrite Hclip. cbn [JS.getUTCFullYear JS.getUTCMonth option_map].
      apply month_loop_spec; [fold endMonth; lia | fold joinMonth; lia | reflexivity]. }
    split.
    + intros Hle. split; [exact Hrun|].
      split; [unfold months, months_from; rewrite length_map, length_seq; lia|].
      split.
      { unfold months. rewrite months_from_nth by lia. rewrite Z.add_0_r.
        apply f_equal, month_at_index. subst joinMonth. lia. }
      split.
      { unfold months. rewrite months_from_nth by lia.
        replace (s + Z.of_nat (Z.to_nat (e - s))) with e by lia.
        apply f_equal, month_at_index. subst endMonth. lia. }
      split; [apply months_from_sorted|].
      apply Forall_forall. intros ym Hin. unfold months, months_from in Hin.
      apply in_map_iff in Hin. destruct Hin as [k [<- _]].
      apply pad_month_two_digits, month_at_range.
    + intros Hlt. rewrite Hrun. unfold months.
      replace (Z.to_nat (e - s + 1)) with 0%nat by lia. reflexivity.
Qed.

(** The scenario of the specification: joined on 2023-11-15, asked on
    2024-01-10. *)
Lemma getMonthUrlsFromJoined_plan_witness :
  Finite 1700006400 = Finite 1700006400 /\
  JS.TimeClip (1700006400 * 1000) = Some (1700006400 * 1000) /\
  month_index (JS.YearFromTime (1700006400 * 1000)) (JS.MonthFromTime (1700006400 * 1000) + 1)
    <= month_index (JS.YearFromTime 1704844800000) (JS.MonthFromTime 1704844800000 + 1) /\
  getMonthUrlsFromJoined 1704844800000 "bob" (Finite 1700006400) =
    ["https://api.chess.com/pub/player/bob/games/2023/11";
     "https://api.chess.com/pub/player/bob/games/2023/12";
     "https://api.chess.com/pub/player/bob/games/2024/01"].
Proof.
  assert (H1 : JS.TimeClip (1700006400 * 1000) = Some (1700006400 * 1000)) by reflexivity.
  assert (H2 : month_index (JS.YearFromTime (1700006400 * 1000))
                 (JS.MonthFromTime (1700006400 * 1000) + 1)
               <= month_index (JS.YearFromTime 1704844800000)
                    (JS.MonthFromTime 1704844800000 + 1)) by (vm_compute; discriminate).
  split; [reflexivity|]. split; [exact H1|]. split; [exact H2|].
  destruct (getMonthUrlsFromJoined_plan 1704844800000 "bob" (Finite 1700006400))
    as [_ Hplan].
  destruct (Hplan 1700006400 eq_refl H1) as [Hrange _].
  destruct (Hrange H2) as [Hurls _].
  rewrite Hurls. vm_compute. reflexivity.
Defined.

(** ** The fetch primitive *)

Lemma logged_nil w : logged w [] = w.
Proof. destruct w. unfold logged. cbn. rewrite app_nil_r. reflexivity. Qed.

Lemma logged_app w a b : logged (logged w a) b = logged w (a ++ b)%list.
Proof. unfold logged. cbn. rewrite app_assoc. reflexivity. Qed.

Section FetchFacts.
Variable server : list string -> string -> http_outcome.

Lemma fetchJson_world url w : snd (fetchJson server url w) = logged w [url].
Proof.
  unfold fetchJson.
  destruct (server (requests w) url) as [e|status [v|e]]; [reflexivity|..];
    destruct (negb (response_ok status)); reflexivity.
Qed.

Lemma archive_games_app log a b :
  archive_games server log (a ++ b) =
  (archive_games server log a ++ archive_games server (log ++ a) b)%list.
Proof.
  revert log. induction a as [|u a IH]; intros log; cbn.
  - rewrite app_nil_r. reflexivity.
  - rewrite IH, <- !app_assoc. reflexivity.
Qed.

Lemma fetchJson_games url w :
  match fst (fetchJson server url w) with
  | Ok value => games_or_empty value
  | Throw _ => []
  end = outcome_games (server (requests w) url).
Proof.
  unfold fetchJson, outcome_games.
  destruct (server (requests w) url) as [e|status [v|e]]; [reflexivity|..];
    destruct (response_ok status); reflexivity.
Qed.

Lemma allSettled_fetch chunk : forall w,
  exists settled,
    allSettled (map (fetchJson server) chunk) w = (Ok settled, logged w chunk) /\
    forall acc,
      push_settled acc settled = (acc ++ archive_games server (requests w) chunk)%list.
Proof.
  induction chunk as [|u chunk IH]; intros w.
  - exists []. split; [cbn; unfold ret; rewrite logged_nil; reflexivity|].
    intros acc. cbn. rewrite app_nil_r. reflexivity.
  - destruct (IH (logged w [u])) as [rest [Hrun Hpush]].
    pose proof (fetchJson_world u w) as Hw.
    pose proof (fetchJson_games u w) as Hg.
    destruct (fetchJson server u w) as [r w1] eqn:E. cbn in Hw, Hg. subst w1.
    exists (r :: rest). split.
    + cbn [map allSettled]. unfold bind at 1. unfold settle. rewrite E.
      unfold bind. rewrite Hrun. unfold ret. rewrite logged_app. reflexivity.
    + intros acc. unfold push_settled in *. cbn [fold_left archive_games].
      rewrite Hpush. cbn [logged requests]. rewrite <- Hg.
      destruct r; rewrite <- ?app_assoc; reflexivity.
Qed.

Lemma fetch_chunks_spec cs : forall acc w,
  fetch_chunks server cs acc w =
  (Ok (acc ++ archive_games server (requests w) (List.concat cs))%list, logged w (List.concat cs)).
Proof.
  induction cs as [|chunk cs IH]; intros acc w.
  - cbn. unfold ret. rewrite app_nil_r, logged_nil. reflexivity.
  - cbn [fetch_chunks List.concat]. unfold bind.
    destruct (allSettled_fetch chunk w) as [settled [Hrun Hpush]].
    rewrite Hrun, IH, Hpush, logged_app, archive_games_app, app_assoc.
    reflexivity.
Qed.
End FetchFacts.

Lemma concat_chunks {A} chunkSize (l : list A) : List.concat (chunks chunkSize l) = l.
Proof.
  funelim (chunks chunkSize l); [reflexivity|].
  cbn [List.concat].
  match goal with IH : List.concat _ = _ |- _ => rewrite IH end.
  apply firstn_skipn.
Qed.

Lemma chunks_bounded {A} chunkSize (l : list A) :
  Forall (fun c => (0 < List.length c <= Pos.to_nat chunkSize)%nat) (chunks chunkSize l).
Proof.
  funelim (chunks chunkSize l); constructor; [|assumption].
  rewrite length_firstn. cbn [List.length]. lia.
Qed.

(** C8 (as the code has it).  A response whose status is outside 200..299
    makes [fetchJson] throw a plain [Error] whose message is
    "Request failed (<status>) for <url>"; a rejection of [fetch] and a
    failure to parse the body are passed on unchanged; any other response
    gives its body.  Each call issues exactly one request. *)
Theorem fetchJson_outcomes server url w :
  snd (fetchJson server url w) = logged w [url] /\
  match server (requests w) url with
  | NetworkFailure e => fst (fetchJson server url w) = Throw e
  | Response status b =>
      if response_ok status then
        match b with
        | JsonBody v => fst (fetchJson server url w) = Ok v
        | MalformedBody e => fst (fetchJson server url w) = Throw e
        end
      else
        fst (fetchJson server url w) =
          Throw (Error ("Request failed (" ++ JS.String_of status ++ ") for " ++ url)) /\
        error_name (Error ("Request failed (" ++ JS.String_of status ++ ") for " ++ url))
          = "Error"
  end.
Proof.
  split; [apply fetchJson_world|].
  unfold fetchJson.
  destruct (server (requests w) url) as [e|status [v|e]]; [reflexivity|..];
    destruct (response_ok status); cbn; auto.
Qed.

(** C8, the claim as worded: the error for a 404 answer is not a
    [RequestError]; it is a plain [Error] that holds the status and the URL
    in its message only. *)
Lemma fetchJson_no_RequestError :
  let server := fun (_ : list string) (_ : string) => Response 404 (JsonBody None) in
  let w := {| requests := [];
              storage := {| disabled := None; full := None; items := fun _ => None |} |} in
  exists e,
    fst (fetchJson server "https://api.chess.com/pub/player/bob" w) = Throw e /\
    e = Error "Request failed (404) for https://api.chess.com/pub/player/bob" /\
    error_name e <> "RequestError".
Proof.
  eexists. split; [reflexivity|]. split; [reflexivity|]. cbn. discriminate.
Qed.

(** ** The bounded fetcher *)

(** C3.  [fetchMonthlyArchives] never throws.  It issues one request per
    URL, in order, and returns the games arrays of the successful exchanges
    concatenated in that order, whatever the chunk size.  A failed exchange
    (no response, a status outside 200..299, a body that does not parse) adds
    nothing, and neither does a body without a games array. *)
Theorem fetchMonthlyArchives_best_effort server monthUrls chunkSize w :
  fetchMonthlyArchives server monthUrls chunkSize w =
    (Ok (archive_games server (requests w) monthUrls), logged w monthUrls) /\
  (forall e, outcome_games (NetworkFailure e) = []) /\
  (forall status b, response_ok status = false -> outcome_games (Response status b) = []) /\
  (forall status e, outcome_games (Response status (MalformedBody e)) = []) /\
  (forall status, outcome_games (Response status (JsonBody None)) = []) /\
  (forall status o,
     games o = None -> outcome_games (Response status (JsonBody (Some o))) = []) /\
  (forall status o gs,
     response_ok status = true -> games o = Some gs ->
     outcome_games (Response status (JsonBody (Some o))) = gs).
Proof.
  split.
  { unfold fetchMonthlyArchives. rewrite fetch_chunks_spec, concat_chunks. reflexivity. }
  split; [reflexivity|].
  split; [intros status b H; cbn; rewrite H; destruct b; reflexivity|].
  split; [reflexivity|].
  split; [intros status; cbn; destruct (response_ok status); reflexivity|].
  split.
  - intros status o H. cbn. rewrite H. destruct (response_ok status); reflexivity.
  - intros status o gs Hok H. cbn. rewrite Hok, H. reflexivity.
Qed.

(** ** Stable sorting *)

Section SortFacts.
Context {A : Type} (cmp : A -> A -> Z).

Lemma insert_perm x l : Permutation (JS.insert cmp x l) (x :: l).
Proof.
  induction l as [|y l IH]; cbn; [reflexivity|].
  destruct (cmp x y <=? 0); [reflexivity|].
  rewrite IH. apply perm_swap.
Qed.

Lemma sort_perm l : Permutation (JS.sort cmp l) l.
Proof.
  induction l as [|x l IH]; cbn; [reflexivity|].
  rewrite insert_perm. constructor. exact IH.
Qed.

Lemma sort_In x l : In x (JS.sort cmp l) <-> In x l.
Proof.
  split; apply Permutation_in; [|symmetry]; apply sort_perm.
Qed.

Hypothesis cmp_total : forall a b, cmp a b <= 0 \/ cmp b a <= 0.
Hypothesis cmp_trans : forall a b c, cmp a b <= 0 -> cmp b c <= 0 -> cmp a c <= 0.

Lemma insert_sorted x l :
  StronglySorted (fun a b => cmp a b <= 0) l ->
  StronglySorted (fun a b => cmp a b <= 0) (JS.insert cmp x l).
Proof.
  induction 1 as [|y l Hs IH Hall]; cbn.
  - repeat constructor.
  - destruct (Z.leb_spec (cmp x y) 0) as [Hle|Hgt].
    + constructor; [constructor; assumption|].
      constructor; [assumption|].
      eapply Forall_impl; [|exact Hall]. intros z Hz. eapply cmp_trans; eauto.
    + constructor; [exact IH|].
      apply Forall_forall. intros z Hz.
      apply (Permutation_in _ (insert_perm x l)) in Hz.
      destruct Hz as [<-|Hz].
      * destruct (cmp_total x y); lia.
      * rewrite Forall_forall in Hall. auto.
Qed.

Lemma sort_sorted l : StronglySorted (fun a b => cmp a b <= 0) (JS.sort cmp l).
Proof.
  induction l as [|x l IH]; cbn; [constructor|]. apply insert_sorted, IH.
Qed.
End SortFacts.

(** ** The day map *)

Lemma Map_get_set m k v k' :
  Map_get (Map_set m k v) k' = if String.eqb k k' then Some v else Map_get m k'.
Proof.
  unfold Map_get. induction m as [|[k0 old] m IH]; cbn.
  - destruct (String.eqb_spec k k'); reflexivity.
  - destruct (String.eqb_spec k0 k) as [->|Hne]; cbn.
    + destruct (String.eqb_spec k k'); reflexivity.
    + destruct (String.eqb_spec k0 k') as [->|Hne'].
      * destruct (String.eqb_spec k k'); [congruence|reflexivity].
      * exact IH.
Qed.

Lemma Map_set_keys m k v :
  map fst (Map_set m k v) =
  if existsb (String.eqb k) (map fst m) then map fst m else (map fst m ++ [k])%list.
Proof.
  induction m as [|[k0 old] m IH]; cbn; [reflexivity|].
  destruct (String.eqb_spec k0 k) as [->|Hne]; cbn.
  - rewrite String.eqb_refl. reflexivity.
  - destruct (String.eqb_spec k k0); [congruence|]. cbn. rewrite IH.
    destruct (existsb (String.eqb k) (map fst m)); reflexivity.
Qed.

Lemma existsb_eqb_In k l : existsb (String.eqb k) l = true <-> In k l.
Proof.
  rewrite existsb_exists. split.
  - intros [x [Hin Heq]]. apply String.eqb_eq in Heq. subst. exact Hin.
  - intros Hin. exists k. split; [exact Hin|apply String.eqb_refl].
Qed.

Lemma Map_set_NoDup m k v : NoDup (map fst m) -> NoDup (map fst (Map_set m k v)).
Proof.
  intros H. rewrite Map_set_keys.
  destruct (existsb (String.eqb k) (map fst m)) eqn:E; [exact H|].
  apply NoDup_app_remove_l with (l := []). cbn.
  rewrite <- (app_nil_l (map fst m ++ [k])).
  cbn. apply Permutation_NoDup with (l := k :: map fst m).
  - rewrite Permutation_app_comm. reflexivity.
  - constructor; [|exact H]. intros Hin. apply existsb_eqb_In in Hin. congruence.
Qed.

Lemma Map_set_dated m k v :
  Forall (fun kv => fst kv = date (snd kv)) m -> k = date v ->
  Forall (fun kv => fst kv = date (snd kv)) (Map_set m k v).
Proof.
  intros H Hk. induction H as [|[k0 old] m Hhd Htl IH]; cbn.
  - constructor; [exact Hk|constructor].
  - destruct (String.eqb_spec k0 k) as [->|Hne]; constructor; auto.
Qed.

Lemma Map_values_get m d :
  Forall (fun kv => fst kv = date (snd kv)) m ->
  sample_on d (Map_values m) = Map_get m d.
Proof.
  unfold sample_on, Map_get, Map_values.
  induction 1 as [|[k v] m Hhd Htl IH]; cbn; [reflexivity|].
  cbn in Hhd. subst k. destruct (String.eqb (date v) d); [reflexivity|exact IH].
Qed.

(** ** Order of calendar-day strings *)

Lemma compare_lt_trans a b c :
  String.compare a b = Lt -> String.compare b c = Lt -> String.compare a c = Lt.
Proof.
  intros Hab Hbc. apply String_as_OT.cmp_lt.
  apply String_as_OT.lt_trans with b; apply String_as_OT.cmp_lt; assumption.
Qed.

Lemma localeCompare_le a b :
  JS.localeCompare a b <= 0 <-> String.compare a b <> Gt.
Proof.
  unfold JS.localeCompare. destruct (String.compare a b); split; intros H; try lia;
    try discriminate; congruence.
Qed.

Lemma localeCompare_total a b :
  JS.localeCompare a b <= 0 \/ JS.localeCompare b a <= 0.
Proof.
  rewrite !localeCompare_le. rewrite (String.compare_antisym a b).
  destruct (String.compare b a); cbn; [left|right|left]; discriminate.
Qed.

Lemma localeCompare_trans a b c :
  JS.localeCompare a b <= 0 -> JS.localeCompare b c <= 0 -> JS.localeCompare a c <= 0.
Proof.
  rewrite !localeCompare_le. intros Hab Hbc.
  destruct (String.compare a b) eqn:Eab; [| |congruence].
  - apply String.compare_eq_iff in Eab. subst. exact Hbc.
  - destruct (String.compare b c) eqn:Ebc; [| |congruence].
    + apply String.compare_eq_iff in Ebc. subst. rewrite Eab. discriminate.
    + rewrite (compare_lt_trans _ _ _ Eab Ebc). discriminate.
Qed.

Lemma date_lt_irrefl a : ~ date_lt a a.
Proof.
  unfold date_lt. intros H.
  pose proof (String.compare_antisym (date a) (date a)) as E.
  rewrite H in E. discriminate.
Qed.

Lemma sorted_by_date_strict l :
  NoDup (map date l) ->
  StronglySorted (fun a b => JS.localeCompare (date a) (date b) <= 0) l ->
  StronglySorted date_lt l.
Proof.
  intros Hnd Hs. induction Hs as [|a l Hs IH Hall]; [constructor|].
  cbn in Hnd. inversion Hnd as [|? ? Hnotin Hnd']; subst.
  constructor; [apply IH, Hnd'|].
  apply Forall_forall. intros b Hb.
  rewrite Forall_forall in Hall. specialize (Hall b Hb).
  apply localeCompare_le in Hall. unfold date_lt.
  destruct (String.compare (date a) (date b)) eqn:E; [|reflexivity|congruence].
  apply String.compare_eq_iff in E. exfalso. apply Hnotin. rewrite E.
  apply in_map, Hb.
Qed.

Lemma sorted_dates_NoDup l : StronglySorted date_lt l -> NoDup (map date l).
Proof.
  induction 1 as [|a l Hs IH Hall]; cbn; constructor; [|exact IH].
  intros Hin. apply in_map_iff in Hin. destruct Hin as [b [Hd Hb]].
  rewrite Forall_forall in Hall. specialize (Hall b Hb).
  unfold date_lt in Hall. rewrite Hd in Hall.
  apply (date_lt_irrefl a). exact Hall.
Qed.

(** In a series without repeated dates, the entry of a day is the one member
    with that date. *)
Lemma sample_on_In l d s :
  NoDup (map date l) ->
  (sample_on d l = Some s <-> In s l /\ date s = d).
Proof.
  unfold sample_on. intros Hnd. induction l as [|a l IH]; cbn.
  - split; [discriminate|intros [[] _]].
  - cbn in Hnd. inversion Hnd as [|? ? Hnotin Hnd']; subst.
    destruct (String.eqb_spec (date a) d) as [E|E].
    + split.
      * intros [= <-]. auto.
      * intros [[<-|Hin] Hd]; [reflexivity|].
        exfalso. apply Hnotin. rewrite E, <- Hd. apply in_map, Hin.
    + rewrite (IH Hnd'). split.
      * intros [Hin Hd]. auto.
      * intros [[<-|Hin] Hd]; [congruence|auto].
Qed.

Lemma sample_on_perm l l' d :
  NoDup (map date l) -> Permutation l l' -> sample_on d l' = sample_on d l.
Proof.
  intros Hnd Hp.
  assert (Hnd' : NoDup (map date l')).
  { eapply Permutation_NoDup; [apply Permutation_map, Hp|exact Hnd]. }
  destruct (sample_on d l) as [s|] eqn:E.
  - apply (sample_on_In _ _ _ Hnd) in E. apply (sample_on_In _ _ _ Hnd').
    destruct E as [Hin Hd]. split; [eapply Permutation_in; eauto|exact Hd].
  - destruct (sample_on d l') as [s|] eqn:E'; [|reflexivity].
    apply (sample_on_In _ _ _ Hnd') in E'. destruct E' as [Hin Hd].
    assert (E2 : sample_on d l = Some s).
    { apply (sample_on_In _ _ _ Hnd). split; [|exact Hd].
      eapply Permutation_in; [symmetry; exact Hp|exact Hin]. }
    congruence.
Qed.

(** Two series in strictly increasing date order that agree on every day are
    the same series. *)
Lemma sorted_series_ext l : forall l',
  StronglySorted date_lt l -> StronglySorted date_lt l' ->
  (forall d, sample_on d l = sample_on d l') -> l = l'.
Proof.
  assert (Hmem : forall l l', StronglySorted date_lt l -> StronglySorted date_lt l' ->
                   (forall d, sample_on d l = sample_on d l') ->
                   forall s, In s l -> In s l').
  { intros l1 l2 H1 H2 Hext s Hin.
    assert (E : sample_on (date s) l1 = Some s).
    { apply sample_on_In; [apply sorted_dates_NoDup, H1|auto]. }
    rewrite Hext in E. apply sample_on_In in E; [tauto|apply sorted_dates_NoDup, H2]. }
  induction l as [|a l IH]; intros l' Hs Hs' Hext.
  - destruct l' as [|b l']; [reflexivity|].
    exfalso. apply (Hmem (b :: l') [] Hs' Hs (fun d => eq_sym (Hext d)) b). left. reflexivity.
  - destruct l' as [|b l'].
    { exfalso. apply (Hmem (a :: l) [] Hs Hs' Hext a). left. reflexivity. }
    inversion Hs as [|? ? Hsl Hal]; subst. inversion Hs' as [|? ? Hsl' Hal']; subst.
    rewrite Forall_forall in Hal, Hal'.
    assert (Eab : a = b).
    { pose proof (Hmem _ _ Hs Hs' Hext a (or_introl eq_refl)) as Ha.
      pose proof (Hmem _ _ Hs' Hs (fun d => eq_sym (Hext d)) b (or_introl eq_refl)) as Hb.
      destruct Ha as [Ha|Ha]; [congruence|]. destruct Hb as [Hb|Hb]; [congruence|].
      exfalso. apply (date_lt_irrefl a). unfold date_lt.
      apply compare_lt_trans with (date b); [apply Hal, Hb|apply Hal', Ha]. }
    subst b. f_equal. apply IH; [assumption..|].
    intros d. specialize (Hext d). unfold sample_on in *. cbn in Hext.
    destruct (String.eqb_spec (date a) d) as [E|E]; [|exact Hext].
    subst d.
    assert (N : forall t, StronglySorted date_lt (a :: t) ->
                find (fun s => String.eqb (date s) (date a)) t = None).
    { intros t Ht. destruct (find _ t) as [s|] eqn:F; [|reflexivity].
      apply find_some in F. destruct F as [Hin Hd]. apply String.eqb_eq in Hd.
      inversion Ht as [|? ? _ Hat]; subst. rewrite Forall_forall in Hat.
      specialize (Hat s Hin). unfold date_lt in Hat. rewrite Hd in Hat.
      exfalso. apply (date_lt_irrefl a). exact Hat. }
    rewrite (N l Hs), (N l' Hs'). reflexivity.
Qed.

(** ** The reducer, day by day *)

Lemma merge_day_assoc acc s rest :
  merge_day (merge_day acc (Some s)) rest = merge_day acc (Some (later_of s rest)).
Proof.
  destruct acc as [p|]; [|reflexivity]. destruct rest as [b|]; cbn.
  - destruct (Z.ltb_spec (epoch p) (epoch s)); destruct (Z.ltb_spec (epoch s) (epoch b));
      cbn; repeat match goal with |- context [?x <? ?y] => destruct (Z.ltb_spec x y) end;
      try reflexivity; lia.
  - destruct (Z.ltb_spec (epoch p) (epoch s)); reflexivity.
Qed.

Lemma Map_get_upsert m s d :
  Map_get (upsert m s) d =
  if String.eqb (date s) d then merge_day (Map_get m d) (Some s) else Map_get m d.
Proof.
  unfold upsert. destruct (String.eqb_spec (date s) d) as [<-|Hne].
  - destruct (Map_get m (date s)) as [p|] eqn:E; cbn.
    + destruct (epoch p <? epoch s).
      * rewrite Map_get_set, String.eqb_refl. reflexivity.
      * exact E.
    + rewrite Map_get_set, String.eqb_refl. reflexivity.
  - assert (Hset : Map_get (Map_set m (date s) s) d = Map_get m d).
    { rewrite Map_get_set. destruct (String.eqb_spec (date s) d); [contradiction|reflexivity]. }
    destruct (Map_get m (date s)) as [p|]; [destruct (epoch p <? epoch s)|]; auto.
Qed.

Lemma upsert_NoDup m s : NoDup (map fst m) -> NoDup (map fst (upsert m s)).
Proof.
  intros H. unfold upsert.
  destruct (Map_get m (date s)) as [p|]; [destruct (epoch p <? epoch s)|];
    auto using Map_set_NoDup.
Qed.

Lemma upsert_dated m s :
  Forall (fun kv => fst kv = date (snd kv)) m ->
  Forall (fun kv => fst kv = date (snd kv)) (upsert m s).
Proof.
  intros H. unfold upsert.
  destruct (Map_get m (date s)) as [p|]; [destruct (epoch p <? epoch s)|];
    auto using Map_set_dated.
Qed.

Section ReducerFacts.
Variable toIsoDate : Z -> string.
Variable normalizedUsername : string.

Local Abbreviation offer := (candidate toIsoDate normalizedUsername).
Local Abbreviation step := (history_step toIsoDate normalizedUsername).

Lemma history_step_candidate m g :
  is_rated_rapid g = true ->
  step m g = match offer g with Some s => upsert m s | None => m end.
Proof.
  unfold is_rated_rapid, history_step, candidate, matched_side. intros ->.
  destruct (side_is (white g) normalizedUsername);
    [|destruct (side_is (black g) normalizedUsername); [|reflexivity]].
  all: match goal with |- context [rating_of ?side] => destruct (rating_of side) end;
    reflexivity.
Qed.

Lemma candidate_fields g s :
  offer g = Some s -> date s = toIsoDate (end_time g) /\ epoch s = end_time g.
Proof.
  unfold candidate. intros H.
  destruct (String.eqb (time_class g) "rapid" && rated g); [|discriminate].
  destruct (matched_side normalizedUsername g) as [side|]; [|discriminate].
  destruct (rating_of side); [|discriminate].
  injection H as <-. auto.
Qed.

Lemma candidate_is_rated_rapid g : is_rated_rapid g = false -> offer g = None.
Proof. unfold is_rated_rapid, candidate. intros ->. reflexivity. Qed.

Lemma fold_step_day l : forall m d,
  Forall (fun g => is_rated_rapid g = true) l ->
  Map_get (fold_left step l m) d = merge_day (Map_get m d) (day_best offer d l).
Proof.
  induction l as [|g l IH]; intros m d Hall; cbn [fold_left day_best].
  - destruct (Map_get m d); reflexivity.
  - inversion Hall as [|? ? Hg Hl]; subst.
    rewrite (IH _ _ Hl), (history_step_candidate _ _ Hg).
    destruct (offer g) as [s|]; [|reflexivity].
    rewrite Map_get_upsert.
    destruct (String.eqb (date s) d); [apply merge_day_assoc|reflexivity].
Qed.

Lemma fold_step_invariant l : forall m,
  Forall (fun g => is_rated_rapid g = true) l ->
  NoDup (map fst m) /\ Forall (fun kv => fst kv = date (snd kv)) m ->
  NoDup (map fst (fold_left step l m)) /\
  Forall (fun kv => fst kv = date (snd kv)) (fold_left step l m).
Proof.
  induction l as [|g l IH]; intros m Hall [Hnd Hd]; cbn [fold_left]; [auto|].
  inversion Hall as [|? ? Hg Hl]; subst.
  apply (IH _ Hl). rewrite (history_step_candidate _ _ Hg).
  destruct (offer g); auto using upsert_NoDup, upsert_dated.
Qed.

Lemma later_of_swap s t rest :
  epoch t < epoch s ->
  later_of t (Some (later_of s rest)) = later_of s (Some (later_of t rest)).
Proof.
  intros H. destruct rest as [b|]; cbn.
  - destruct (Z.ltb_spec (epoch s) (epoch b)); destruct (Z.ltb_spec (epoch t) (epoch b));
      repeat match goal with |- context [?x <? ?y] => destruct (Z.ltb_spec x y) end;
      try reflexivity; lia.
  - destruct (Z.ltb_spec (epoch t) (epoch s)); destruct (Z.ltb_spec (epoch s) (epoch t));
      try reflexivity; lia.
Qed.

Lemma day_best_insert d g l :
  day_best offer d (JS.insert by_end_time g l) = day_best offer d (g :: l).
Proof.
  induction l as [|h l IH]; [reflexivity|].
  cbn [JS.insert]. unfold by_end_time at 1.
  destruct (Z.leb_spec (end_time g - end_time h) 0) as [Hle|Hgt]; [reflexivity|].
  change (day_best offer d (h :: JS.insert by_end_time g l) = day_best offer d (g :: h :: l)).
  cbn [day_best] in *. rewrite IH.
  destruct (offer h) as [t|] eqn:Eh; [|reflexivity].
  destruct (offer g) as [s|] eqn:Eg; [|reflexivity].
  apply candidate_fields in Eh, Eg. destruct Eh as [_ Eh]. destruct Eg as [_ Eg].
  destruct (String.eqb (date t) d); destruct (String.eqb (date s) d); try reflexivity.
  f_equal. apply later_of_swap. lia.
Qed.

Lemma day_best_sort d l :
  day_best offer d (JS.sort by_end_time l) = day_best offer d l.
Proof.
  induction l as [|g l IH]; [reflexivity|].
  cbn [JS.sort]. rewrite day_best_insert. cbn [day_best]. rewrite IH. reflexivity.
Qed.

Lemma day_best_filter d l :
  day_best offer d (filter is_rated_rapid l) = day_best offer d l.
Proof.
  induction l as [|g l IH]; [reflexivity|]. cbn [filter].
  destruct (is_rated_rapid g) eqn:E; cbn [day_best]; rewrite IH; [reflexivity|].
  rewrite (candidate_is_rated_rapid _ E). reflexivity.
Qed.

Lemma rapidGames_is_rated_rapid l :
  Forall (fun g => is_rated_rapid g = true) (JS.sort by_end_time (filter is_rated_rapid l)).
Proof.
  apply Forall_forall. intros g Hin. apply sort_In, filter_In in Hin. tauto.
Qed.

(** The history series: its dates increase strictly, and its entry for a day
    is the sample of the latest qualifying game of that day (the first of
    the equally late ones, in input order). *)
Lemma reduceHistory_sorted l :
  StronglySorted date_lt (reduceHistory toIsoDate normalizedUsername l).
Proof.
  unfold reduceHistory.
  destruct (fold_step_invariant _ [] (rapidGames_is_rated_rapid l)) as [Hnd Hd];
    [split; constructor|].
  set (m := fold_left step (JS.sort by_end_time (filter is_rated_rapid l)) []) in *.
  change (StronglySorted date_lt
            (JS.sort by_date (Map_values m))).
  assert (Hdates : map date (Map_values m) = map fst m).
  { unfold Map_values. rewrite map_map. apply map_ext_Forall.
    eapply Forall_impl; [|exact Hd]. intros kv H. symmetry. exact H. }
  apply sorted_by_date_strict.
  - eapply Permutation_NoDup; [apply Permutation_map; symmetry; apply sort_perm|].
    rewrite Hdates. exact Hnd.
  - apply (sort_sorted by_date).
    + intros a b. apply localeCompare_total.
    + intros a b c. apply localeCompare_trans.
Qed.

Lemma reduceHistory_day l d :
  sample_on d (reduceHistory toIsoDate normalizedUsername l) = day_best offer d l.
Proof.
  unfold reduceHistory.
  destruct (fold_step_invariant _ [] (rapidGames_is_rated_rapid l)) as [Hnd Hd];
    [split; constructor|].
  pose proof (fold_step_day _ [] d (rapidGames_is_rated_rapid l)) as Hday.
  set (m := fold_left step (JS.sort by_end_time (filter is_rated_rapid l)) []) in *.
  change (sample_on d (JS.sort by_date (Map_values m))
          = day_best offer d l).
  assert (Hdates : map date (Map_values m) = map fst m).
  { unfold Map_values. rewrite map_map. apply map_ext_Forall.
    eapply Forall_impl; [|exact Hd]. intros kv H. symmetry. exact H. }
  rewrite (sample_on_perm (Map_values m)).
  - rewrite (Map_values_get _ _ Hd), Hday. cbn [Map_get find option_map merge_day].
    rewrite day_best_sort, day_best_filter. reflexivity.
  - rewrite Hdates. exact Hnd.
  - symmetry. apply sort_perm.
Qed.

End ReducerFacts.

(** ** What [day_best] picks *)

Section DayBest.
Variable offer : game -> option sample.

Lemma later_of_cases s rest :
  (later_of s rest = s /\ forall b, rest = Some b -> epoch b <= epoch s) \/
  (exists b, rest = Some b /\ later_of s rest = b /\ epoch s < epoch b).
Proof.
  destruct rest as [b|]; cbn.
  - destruct (Z.ltb_spec (epoch s) (epoch b)).
    + right. exists b. auto.
    + left. split; [reflexivity|]. intros b' [= <-]. exact H.
  - left. split; [reflexivity|]. discriminate.
Qed.

Lemma day_best_spec d gs :
  match day_best offer d gs with
  | Some b =>
      (exists g, In g gs /\ offer g = Some b) /\ date b = d /\
      forall g s, In g gs -> offer g = Some s -> date s = d -> epoch s <= epoch b
  | None => forall g s, In g gs -> offer g = Some s -> date s <> d
  end.
Proof.
  induction gs as [|g gs IH]; cbn [day_best].
  - intros g s [].
  - destruct (offer g) as [t|] eqn:Eg.
    + destruct (String.eqb_spec (date t) d) as [Ed|Ed].
      * destruct (later_of_cases t (day_best offer d gs)) as [[-> Hle]|[b [Eb [-> Hlt]]]].
        -- split; [exists g; cbn; auto|]. split; [exact Ed|].
           intros g' s [<-|Hin] Hs Hd; [rewrite Eg in Hs; injection Hs as <-; lia|].
           destruct (day_best offer d gs) as [b|].
           ++ destruct IH as [_ [_ Hmax]]. specialize (Hmax _ _ Hin Hs Hd).
              specialize (Hle b eq_refl). lia.
           ++ exfalso. exact (IH _ _ Hin Hs Hd).
        -- rewrite Eb in IH. destruct IH as [[g0 [Hin0 Hg0]] [Hd Hmax]].
           split; [exists g0; cbn; auto|]. split; [exact Hd|].
           intros g' s [<-|Hin] Hs Hds; [rewrite Eg in Hs; injection Hs as <-; lia|].
           eauto.
      * destruct (day_best offer d gs) as [b|].
        -- destruct IH as [[g0 [Hin0 Hg0]] [Hd Hmax]].
           split; [exists g0; cbn; auto|]. split; [exact Hd|].
           intros g' s [<-|Hin] Hs Hds; [rewrite Eg in Hs; injection Hs as <-; congruence|].
           eauto.
        -- intros g' s [<-|Hin] Hs; [rewrite Eg in Hs; injection Hs as <-; exact Ed|].
           eauto.
    + destruct (day_best offer d gs) as [b|].
      * destruct IH as [[g0 [Hin0 Hg0]] [Hd Hmax]].
        split; [exists g0; cbn; auto|]. split; [exact Hd|].
        intros g' s [<-|Hin] Hs Hds; [congruence|eauto].
      * intros g' s [<-|Hin] Hs; [congruence|eauto].
Qed.

(** The latest game of a day wins, wherever it stands in the input. *)
Lemma day_best_latest gs g2 s2 :
  In g2 gs -> offer g2 = Some s2 ->
  (forall g s, In g gs -> offer g = Some s -> date s = date s2 ->
               epoch s < epoch s2 \/ s = s2) ->
  day_best offer (date s2) gs = Some s2.
Proof.
  intros Hin Hs Hothers. pose proof (day_best_spec (date s2) gs) as Hspec.
  destruct (day_best offer (date s2) gs) as [b|].
  - destruct Hspec as [[g [Hg Hb]] [Hd Hmax]].
    specialize (Hmax _ _ Hin Hs eq_refl).
    destruct (Hothers _ _ Hg Hb Hd) as [Hlt| ->]; [lia|reflexivity].
  - exfalso. exact (Hspec _ _ Hin Hs eq_refl).
Qed.

(** Among equally late games of a day, the first one in the input wins. *)
Lemma day_best_first l1 g1 l2 s1 :
  offer g1 = Some s1 ->
  (forall g s, In g l1 -> offer g = Some s -> date s = date s1 -> epoch s < epoch s1) ->
  (forall g s, In g l2 -> offer g = Some s -> date s = date s1 -> epoch s <= epoch s1) ->
  day_best offer (date s1) (l1 ++ g1 :: l2) = Some s1.
Proof.
  intros Hs H1 H2. induction l1 as [|g l1 IH]; cbn [app day_best].
  - rewrite Hs, String.eqb_refl. f_equal.
    pose proof (day_best_spec (date s1) l2) as Hspec.
    destruct (day_best offer (date s1) l2) as [b|]; [|reflexivity].
    destruct Hspec as [[g [Hg Hb]] [Hd _]]. specialize (H2 _ _ Hg Hb Hd).
    cbn. destruct (Z.ltb_spec (epoch s1) (epoch b)); [lia|reflexivity].
  - rewrite IH by (intros g' s Hin; apply H1; right; exact Hin).
    destruct (offer g) as [t|] eqn:Eg; [|reflexivity].
    destruct (String.eqb_spec (date t) (date s1)) as [Ed|Ed]; [|reflexivity].
    specialize (H1 g t (or_introl eq_refl) Eg Ed). cbn.
    destruct (Z.ltb_spec (epoch t) (epoch s1)); [reflexivity|lia].
Qed.

(** A game that offers nothing can be left out. *)
Lemma day_best_skip d l1 g l2 :
  offer g = None -> day_best offer d (l1 ++ g :: l2) = day_best offer d (l1 ++ l2).
Proof.
  intros Hg. induction l1 as [|h l1 IH]; cbn [app day_best].
  - rewrite Hg. reflexivity.
  - rewrite IH. reflexivity.
Qed.

End DayBest.

Lemma candidate_Some toIsoDate normalizedUsername g s :
  candidate toIsoDate normalizedUsername g = Some s <->
  rated g = true /\ time_class g = "rapid" /\
  exists side r,
    matched_side normalizedUsername g = Some side /\ rating_of side = Some r /\
    s = {| date := toIsoDate (end_time g); sample_rating := r; epoch := end_time g |}.
Proof.
  unfold candidate. split.
  - destruct (String.eqb_spec (time_class g) "rapid") as [E|E]; [|discriminate].
    destruct (rated g); [|discriminate]. cbn.
    destruct (matched_side normalizedUsername g) as [side|]; [|discriminate].
    destruct (rating_of side) as [r|] eqn:Er; [|discriminate].
    intros [= <-]. repeat split; auto. exists side, r. auto.
  - intros [-> [-> [side [r [-> [-> ->]]]]]]. reflexivity.
Qed.

Lemma disqualified_candidate toIsoDate normalizedUsername g :
  disqualified normalizedUsername g <-> candidate toIsoDate normalizedUsername g = None.
Proof.
  unfold disqualified, candidate, matched_side. split.
  - intros [H|[H|[[Hw Hb]|[side [Hside Hr]]]]].
    + rewrite H, andb_false_r. reflexivity.
    + destruct (String.eqb_spec (time_class g) "rapid"); [contradiction|reflexivity].
    + rewrite Hw, Hb. destruct (String.eqb (time_class g) "rapid" && rated g); reflexivity.
    + rewrite Hside, Hr. destruct (String.eqb (time_class g) "rapid" && rated g); reflexivity.
  - destruct (String.eqb_spec (time_class g) "rapid") as [E|E]; [|auto].
    destruct (rated g); [|auto]. cbn.
    destruct (side_is (white g) normalizedUsername) eqn:Ew.
    + destruct (rating_of (white g)) eqn:Er; [discriminate|].
      intros _. right. right. right. exists (white g). auto.
    + destruct (side_is (black g) normalizedUsername) eqn:Eb; [|auto].
      destruct (rating_of (black g)) eqn:Er; [discriminate|].
      intros _. right. right. right. exists (black g). auto.
Qed.

(** ** The history series *)

Lemma reduceHistory_ext toIsoDate normalizedUsername l l' :
  (forall d, day_best (candidate toIsoDate normalizedUsername) d l =
             day_best (candidate toIsoDate normalizedUsername) d l') ->
  reduceHistory toIsoDate normalizedUsername l = reduceHistory toIsoDate normalizedUsername l'.
Proof.
  intros H. apply sorted_series_ext; try apply reduceHistory_sorted.
  intros d. rewrite !reduceHistory_day. apply H.
Qed.

Lemma reduceHistory_In toIsoDate normalizedUsername l s :
  In s (reduceHistory toIsoDate normalizedUsername l) ->
  exists g, In g l /\ candidate toIsoDate normalizedUsername g = Some s.
Proof.
  intros Hin.
  assert (E : sample_on (date s) (reduceHistory toIsoDate normalizedUsername l) = Some s).
  { apply sample_on_In; [apply sorted_dates_NoDup, reduceHistory_sorted|auto]. }
  rewrite reduceHistory_day in E.
  pose proof (day_best_spec (candidate toIsoDate normalizedUsername) (date s) l) as Hspec.
  rewrite E in Hspec. tauto.
Qed.

Lemma reduceHistory_pair toIsoDate normalizedUsername g1 g2 s1 s2 :
  candidate toIsoDate normalizedUsername g1 = Some s1 ->
  candidate toIsoDate normalizedUsername g2 = Some s2 ->
  date s1 = date s2 ->
  reduceHistory toIsoDate normalizedUsername [g1; g2] = [later_of s1 (Some s2)].
Proof.
  intros H1 H2 Hd. apply sorted_series_ext.
  - apply reduceHistory_sorted.
  - repeat constructor.
  - intros d. rewrite reduceHistory_day. cbn [day_best]. rewrite H1, H2.
    unfold sample_on. cbn [find].
    assert (Hl : date (later_of s1 (Some s2)) = date s1).
    { cbn. destruct (epoch s1 <? epoch s2); congruence. }
    rewrite Hl, <- Hd. destruct (String.eqb (date s1) d); reflexivity.
Qed.

(** C6.  The history series holds at most one sample for a calendar-day
    string: no two of its samples share a date.  When the day strings of
    the qualifying games are calendar days [YYYY-MM-DD] of the years 0 to
    9999, every date of the series is such a string and the dates increase
    strictly along the sequence. *)
Theorem reduceHistory_one_sample_per_day toIsoDate normalizedUsername monthlyGames :
  let history := reduceHistory toIsoDate normalizedUsername monthlyGames in
  NoDup (map date history) /\
  (forall s1 s2, In s1 history -> In s2 history -> date s1 = date s2 -> s1 = s2) /\
  ((forall g s, In g monthlyGames ->
                candidate toIsoDate normalizedUsername g = Some s ->
                iso_day (toIsoDate (end_time g)) = true) ->
   Forall (fun s => iso_day (date s) = true) history /\
   StronglySorted date_lt history).
Proof.
  intros history.
  pose proof (reduceHistory_sorted toIsoDate normalizedUsername monthlyGames) as Hs.
  fold history in Hs. pose proof (sorted_dates_NoDup _ Hs) as Hnd.
  split; [exact Hnd|]. split.
  - intros s1 s2 H1 H2 Hd.
    assert (E1 : sample_on (date s1) history = Some s1) by (apply sample_on_In; auto).
    assert (E2 : sample_on (date s1) history = Some s2) by (apply sample_on_In; auto).
    congruence.
  - intros Hiso. split; [|exact Hs].
    apply Forall_forall. intros s Hin.
    destruct (reduceHistory_In _ _ _ _ Hin) as [g [Hg Hc]].
    destruct (candidate_fields _ _ _ _ Hc) as [Hdate _].
    rewrite Hdate. exact (Hiso g s Hg Hc).
Qed.

(** Three rapid games of two days of March 2024, listed out of order. *)
Lemma reduceHistory_one_sample_per_day_witness :
  let g1 := rated_rapid 1709726400 (player "alice" 1520) (player "bob" 1490) in
  let g2 := rated_rapid 1709640000 (player "alice" 1500) (player "bob" 1490) in
  let g3 := rated_rapid 1709650000 (player "bob" 1480) (player "alice" 1510) in
  Forall (fun s => iso_day (date s) = true)
         (reduceHistory toIsoDate_utc "alice" [g1; g2; g3]) /\
  StronglySorted date_lt (reduceHistory toIsoDate_utc "alice" [g1; g2; g3]) /\
  map date (reduceHistory toIsoDate_utc "alice" [g1; g2; g3]) =
    ["2024-03-05"; "2024-03-06"].
Proof.
  intros g1 g2 g3.
  destruct (reduceHistory_one_sample_per_day toIsoDate_utc "alice" [g1; g2; g3])
    as [_ [_ Hsorted]].
  assert (Hiso : forall g s, In g [g1; g2; g3] ->
                             candidate toIsoDate_utc "alice" g = Some s ->
                             iso_day (toIsoDate_utc (end_time g)) = true).
  { intros g s [E|[E|[E|[]]]] _; subst g; vm_compute; reflexivity. }
  destruct (Hsorted Hiso) as [Hdays Hinc].
  split; [exact Hdays|]. split; [exact Hinc|]. vm_compute. reflexivity.
Defined.

(** C5.  A game that is unrated, or of another time class than rapid, or
    in which the handle is on neither side, or whose handle side has no
    numeric rating, has no effect on the history series: the series is the
    one computed without the game, and each of its samples is the sample of a
    rated rapid game of the handle, with a numeric rating, among the other
    games. *)
Theorem reduceHistory_ignores_disqualified toIsoDate normalizedUsername before g after :
  disqualified normalizedUsername g ->
  reduceHistory toIsoDate normalizedUsername (before ++ g :: after) =
    reduceHistory toIsoDate normalizedUsername (before ++ after) /\
  forall s,
    In s (reduceHistory toIsoDate normalizedUsername (before ++ g :: after)) ->
    exists g',
      In g' (before ++ after) /\ rated g' = true /\ time_class g' = "rapid" /\
      exists side r,
        matched_side normalizedUsername g' = Some side /\ rating_of side = Some r /\
        s = {| date := toIsoDate (end_time g'); sample_rating := r; epoch := end_time g' |}.
Proof.
  intros Hdis. apply (disqualified_candidate toIsoDate) in Hdis.
  assert (E : reduceHistory toIsoDate normalizedUsername (before ++ g :: after) =
              reduceHistory toIsoDate normalizedUsername (before ++ after)).
  { apply reduceHistory_ext. intros d. apply day_best_skip, Hdis. }
  split; [exact E|].
  intros s Hin. rewrite E in Hin. apply reduceHistory_In in Hin.
  destruct Hin as [g' [Hg' Hs]]. exists g'. split; [exact Hg'|].
  apply candidate_Some in Hs. exact Hs.
Qed.

(** An unrated game between two rated rapid games of alice leaves the
    series as it is without it. *)
Lemma reduceHistory_ignores_disqualified_witness :
  let unrated := {| end_time := 1709650000; time_class := "rapid"; rated := false;
                    white := player "Alice" 1900; black := player "carol" 1400 |} in
  let g1 := rated_rapid 1709640000 (player "Alice" 1500) (player "bob" 1480) in
  let g2 := rated_rapid 1709730000 (player "dave" 1450) (player "ALICE" 1510) in
  disqualified "alice" unrated /\
  reduceHistory toIsoDate_utc "alice" [g1; unrated; g2] =
    [ {| date := "2024-03-05"; sample_rating := 1500; epoch := 1709640000 |};
      {| date := "2024-03-06"; sample_rating := 1510; epoch := 1709730000 |} ].
Proof.
  intros unrated g1 g2.
  assert (H : disqualified "alice" unrated) by (left; reflexivity).
  split; [exact H|].
  destruct (reduceHistory_ignores_disqualified toIsoDate_utc "alice" [g1] unrated [g2] H)
    as [E _].
  cbn [app] in E. rewrite E. vm_compute. reflexivity.
Defined.

(** C1.  Last writer wins by recency.  When two qualifying games of a day
    differ in [end_time], the series has exactly one sample for that day and
    it is not older than the later of the two games, whatever the order in
    which the games are listed: the earlier game never gives the sample.
    The sample is that of the later game when no qualifying game of the day
    ends after it, in particular when the two games are the whole input:
    the series is then exactly that one sample, in either order, with the
    [end_time] of the later game as its epoch.  So for two rated rapid games
    with alice as White that end at 100 (rating 1500) and at 200 (rating
    1510) and that the day function places on 2024-03-05, the history for
    alice is the single sample [{ date: 2024-03-05, rating: 1510,
    epoch: 200 }], in both orders of the input. *)
Theorem reduceHistory_last_writer_wins toIsoDate normalizedUsername :
  (forall monthlyGames g1 g2 s1 s2,
     In g1 monthlyGames -> In g2 monthlyGames ->
     candidate toIsoDate normalizedUsername g1 = Some s1 ->
     candidate toIsoDate normalizedUsername g2 = Some s2 ->
     date s1 = date s2 -> epoch s1 < epoch s2 ->
     forall reordered, Permutation monthlyGames reordered ->
     exists s,
       sample_on (date s2) (reduceHistory toIsoDate normalizedUsername reordered) = Some s /\
       (forall s', In s' (reduceHistory toIsoDate normalizedUsername reordered) ->
                   date s' = date s2 -> s' = s) /\
       epoch s2 <= epoch s /\ s <> s1 /\
       ((forall g s', In g monthlyGames ->
                      candidate toIsoDate normalizedUsername g = Some s' ->
                      date s' = date s2 -> epoch s' < epoch s2 \/ s' = s2) ->
        s = s2)) /\
  (forall g1 g2 s1 s2,
     candidate toIsoDate normalizedUsername g1 = Some s1 ->
     candidate toIsoDate normalizedUsername g2 = Some s2 ->
     date s1 = date s2 -> epoch s1 < epoch s2 ->
     date s2 = toIsoDate (end_time g2) /\ epoch s2 = end_time g2 /\
     reduceHistory toIsoDate normalizedUsername [g1; g2] = [s2] /\
     reduceHistory toIsoDate normalizedUsername [g2; g1] = [s2]) /\
  (forall opponent1 opponent2,
     toIsoDate 100 = "2024-03-05" -> toIsoDate 200 = "2024-03-05" ->
     let early := rated_rapid 100 (player "alice" 1500) opponent1 in
     let late := rated_rapid 200 (player "alice" 1510) opponent2 in
     reduceHistory toIsoDate "alice" [early; late] =
       [ {| date := "2024-03-05"; sample_rating := 1510; epoch := 200 |} ] /\
     reduceHistory toIsoDate "alice" [late; early] =
       [ {| date := "2024-03-05"; sample_rating := 1510; epoch := 200 |} ]).
Proof.
  assert (Hpair : forall user g1 g2 s1 s2,
     candidate toIsoDate user g1 = Some s1 ->
     candidate toIsoDate user g2 = Some s2 ->
     date s1 = date s2 -> epoch s1 < epoch s2 ->
     reduceHistory toIsoDate user [g1; g2] = [s2] /\
     reduceHistory toIsoDate user [g2; g1] = [s2]).
  { intros user g1 g2 s1 s2 H1 H2 Hd Hlt. split.
    - rewrite (reduceHistory_pair _ _ _ _ _ _ H1 H2 Hd). cbn.
      destruct (Z.ltb_spec (epoch s1) (epoch s2)); [reflexivity|lia].
    - rewrite (reduceHistory_pair _ _ _ _ _ _ H2 H1 (eq_sym Hd)). cbn.
      destruct (Z.ltb_spec (epoch s2) (epoch s1)); [lia|reflexivity]. }
  split; [|split].
  - intros monthlyGames g1 g2 s1 s2 Hin1 Hin2 H1 H2 Hd Hlt reordered Hperm.
    assert (Hin2' : In g2 reordered) by (eapply Permutation_in; eauto).
    pose proof (day_best_spec (candidate toIsoDate normalizedUsername) (date s2) reordered)
      as Hspec.
    destruct (day_best (candidate toIsoDate normalizedUsername) (date s2) reordered)
      as [b|] eqn:Hbest.
    + destruct Hspec as [Hfrom [Hdb Hmax]].
      assert (Hday : sample_on (date s2)
                       (reduceHistory toIsoDate normalizedUsername reordered) = Some b)
        by (rewrite reduceHistory_day; exact Hbest).
      assert (Hge : epoch s2 <= epoch b) by (apply (Hmax g2 s2); auto).
      exists b. split; [exact Hday|]. split.
      { intros s' Hs' Hds'.
        assert (E : sample_on (date s2)
                      (reduceHistory toIsoDate normalizedUsername reordered) = Some s').
        { apply sample_on_In; [apply sorted_dates_NoDup, reduceHistory_sorted|auto]. }
        congruence. }
      split; [exact Hge|]. split.
      { intros E. subst b. lia. }
      intros Hothers.
      assert (Hlatest : sample_on (date s2)
                          (reduceHistory toIsoDate normalizedUsername reordered) = Some s2).
      { rewrite reduceHistory_day. apply day_best_latest with (g2 := g2); auto.
        intros g s Hg. apply Hothers. eapply Permutation_in; [symmetry|]; eauto. }
      congruence.
    + exfalso. exact (Hspec g2 s2 Hin2' H2 eq_refl).
  - intros g1 g2 s1 s2 H1 H2 Hd Hlt.
    destruct (candidate_fields _ _ _ _ H2) as [Hdate Hepoch].
    split; [exact Hdate|]. split; [exact Hepoch|].
    exact (Hpair normalizedUsername g1 g2 s1 s2 H1 H2 Hd Hlt).
  - intros opponent1 opponent2 E1 E2 early late.
    apply (Hpair "alice" early late
             {| date := "2024-03-05"; sample_rating := 1500; epoch := 100 |}
             {| date := "2024-03-05"; sample_rating := 1510; epoch := 200 |}).
    + unfold early. cbn. rewrite E1. reflexivity.
    + unfold late. cbn. rewrite E2. reflexivity.
    + reflexivity.
    + cbn. lia.
Qed.

(** The scenario with a day function that places both end times on
    2024-03-05, and the same two games with end times of that UTC day. *)
Lemma reduceHistory_last_writer_wins_witness :
  let march5 := fun _ : Z => "2024-03-05" in
  let early := rated_rapid 100 (player "alice" 1500) (player "bob" 1490) in
  let late := rated_rapid 200 (player "alice" 1510) (player "bob" 1480) in
  let early24 := rated_rapid 1709640000 (player "alice" 1500) (player "bob" 1490) in
  let late24 := rated_rapid 1709650000 (player "alice" 1510) (player "bob" 1480) in
  (reduceHistory march5 "alice" [early; late] =
     [ {| date := "2024-03-05"; sample_rating := 1510; epoch := 200 |} ] /\
   reduceHistory march5 "alice" [late; early] =
     [ {| date := "2024-03-05"; sample_rating := 1510; epoch := 200 |} ]) /\
  (reduceHistory toIsoDate_utc "alice" [early24; late24] =
     [ {| date := "2024-03-05"; sample_rating := 1510; epoch := 1709650000 |} ] /\
   reduceHistory toIsoDate_utc "alice" [late24; early24] =
     [ {| date := "2024-03-05"; sample_rating := 1510; epoch := 1709650000 |} ]).
Proof.
  intros march5 early late early24 late24.
  split.
  - destruct (reduceHistory_last_writer_wins march5 "alice") as [_ [_ Hscenario]].
    apply (Hscenario (player "bob" 1490) (player "bob" 1480)); reflexivity.
  - destruct (reduceHistory_last_writer_wins toIsoDate_utc "alice") as [_ [Hpair _]].
    apply (Hpair early24 late24
             {| date := "2024-03-05"; sample_rating := 1500; epoch := 1709640000 |}
             {| date := "2024-03-05"; sample_rating := 1510; epoch := 1709650000 |});
      [reflexivity|reflexivity|reflexivity|cbn; lia].
Defined.

(** C9.  Equally late games.  A qualifying game whose [end_time] no
    qualifying game of its day exceeds, and which every earlier-listed
    qualifying game of that day is strictly below, gives the sample of the
    day: later-listed games with the same [end_time] do not replace it.  So
    two equally late games of a day leave the sample of whichever is listed
    first. *)
Theorem reduceHistory_tie_keeps_first toIsoDate normalizedUsername :
  (forall before g1 after s1,
     candidate toIsoDate normalizedUsername g1 = Some s1 ->
     (forall g s, In g before -> candidate toIsoDate normalizedUsername g = Some s ->
                  date s = date s1 -> epoch s < epoch s1) ->
     (forall g s, In g after -> candidate toIsoDate normalizedUsername g = Some s ->
                  date s = date s1 -> epoch s <= epoch s1) ->
     sample_on (date s1)
       (reduceHistory toIsoDate normalizedUsername (before ++ g1 :: after)) = Some s1) /\
  (forall g1 g2 s1 s2,
     candidate toIsoDate normalizedUsername g1 = Some s1 ->
     candidate toIsoDate normalizedUsername g2 = Some s2 ->
     date s1 = date s2 -> epoch s1 = epoch s2 ->
     reduceHistory toIsoDate normalizedUsername [g1; g2] = [s1] /\
     reduceHistory toIsoDate normalizedUsername [g2; g1] = [s2]).
Proof.
  split.
  - intros before g1 after s1 H1 Hbefore Hafter.
    rewrite reduceHistory_day. apply day_best_first; assumption.
  - intros g1 g2 s1 s2 H1 H2 Hd He. split.
    + rewrite (reduceHistory_pair _ _ _ _ _ _ H1 H2 Hd). cbn.
      destruct (Z.ltb_spec (epoch s1) (epoch s2)); [lia|reflexivity].
    + rewrite (reduceHistory_pair _ _ _ _ _ _ H2 H1 (eq_sym Hd)). cbn.
      destruct (Z.ltb_spec (epoch s2) (epoch s1)); [lia|reflexivity].
Qed.

(** Two games of alice that end at the same second: the series depends on
    which one is listed first. *)
Lemma reduceHistory_tie_keeps_first_witness :
  let a := rated_rapid 1709640000 (player "alice" 1500) (player "bob" 1490) in
  let b := rated_rapid 1709640000 (player "carol" 1300) (player "alice" 1510) in
  reduceHistory toIsoDate_utc "alice" [a; b] =
    [ {| date := "2024-03-05"; sample_rating := 1500; epoch := 1709640000 |} ] /\
  reduceHistory toIsoDate_utc "alice" [b; a] =
    [ {| date := "2024-03-05"; sample_rating := 1510; epoch := 1709640000 |} ].
Proof.
  intros a b.
  destruct (reduceHistory_tie_keeps_first toIsoDate_utc "alice") as [_ Hpair].
  apply (Hpair a b
           {| date := "2024-03-05"; sample_rating := 1500; epoch := 1709640000 |}
           {| date := "2024-03-05"; sample_rating := 1510; epoch := 1709640000 |});
    reflexivity.
Defined.

(** ** The day-granularity cache *)

Section CacheFacts.
Variable server : list string -> string -> http_outcome.
Variable clock : list string -> Z.
Variable toIsoDate : Z -> string.
Variable JSON_parse : string -> option json.
Variable JSON_stringify : json -> string.

Lemma read_cache_usable cacheKey refreshKey w :
  exists r,
    try_catch (read_cache JSON_parse cacheKey refreshKey) w = (Ok r, w) /\
    match usable_entry JSON_parse (storage w) cacheKey refreshKey with
    | Some h => r = Some (Some h)
    | None => r = None \/ r = Some None
    end.
Proof.
  unfold try_catch, read_cache, bind, getItem, usable_entry.
  destruct (disabled (storage w)) as [e|].
  { exists None. split; [reflexivity|left; reflexivity]. }
  destruct (items (storage w) cacheKey) as [raw|].
  2: { exists (Some None). split; [reflexivity|right; reflexivity]. }
  destruct raw as [|c raw].
  { exists (Some None). split; [reflexivity|right; reflexivity]. }
  cbn [String.eqb].
  destruct (JSON_parse (String c raw)) as [cached|].
  2: { exists None. split; [reflexivity|left; reflexivity]. }
  destruct (get_field cached "refreshKey") as [[| | |k| |]|];
    try (exists (Some None); split; [reflexivity|right; reflexivity]).
  destruct (get_field cached "history") as [[| | | |h|]|];
    try (exists (Some None); split; [reflexivity|right; reflexivity]).
  destruct (String.eqb k refreshKey).
  - exists (Some (Some h)). split; reflexivity.
  - exists (Some None). split; [reflexivity|right; reflexivity].
Qed.

Lemma fetchRapidHistory_cache username w :
  fetchRapidHistory server clock toIsoDate JSON_parse JSON_stringify username w =
  match usable_entry JSON_parse (storage w) (cache_key username)
          (getUtcRefreshKey (clock (requests w))) with
  | Some history => (Ok history, w)
  | None =>
      recompute_history server clock toIsoDate JSON_stringify (JS.toLowerCase username)
        (cache_key username) (getUtcRefreshKey (clock (requests w))) w
  end.
Proof.
  unfold fetchRapidHistory. unfold bind at 1. unfold Date_now at 1. cbv beta iota.
  fold (cache_key username). unfold bind at 1.
  destruct (read_cache_usable (cache_key username)
              (getUtcRefreshKey (clock (requests w))) w) as [r [Hrun Hr]].
  rewrite Hrun.
  destruct (usable_entry JSON_parse (storage w) (cache_key username)
              (getUtcRefreshKey (clock (requests w)))) as [h|].
  - subst r. reflexivity.
  - destruct Hr as [-> | ->]; reflexivity.
Qed.

Lemma plan_archives_storage normalizedUsername w :
  storage (snd (plan_archives server clock normalizedUsername w)) = storage w.
Proof.
  unfold plan_archives, bind, Date_now, lift, ret.
  pose proof (fetchJson_world server
                ("https://api.chess.com/pub/player/" ++ normalizedUsername) w) as H1.
  destruct (fetchJson server _ w) as [[profileData|e] w1]; cbn in H1; subst w1;
    [|reflexivity].
  destruct (0 <? List.length _)%nat; [reflexivity|].
  match goal with |- context [fetchJson server ?u ?w0] =>
    pose proof (fetchJson_world server u w0) as H2;
    destruct (fetchJson server u w0) as [[index|e] w2]; cbn in H2; subst w2
  end; reflexivity.
Qed.

Lemma fetchMonthlyArchives_run monthUrls chunkSize w :
  fetchMonthlyArchives server monthUrls chunkSize w =
  (Ok (archive_games server (requests w) monthUrls), logged w monthUrls).
Proof.
  unfold fetchMonthlyArchives. rewrite fetch_chunks_spec, concat_chunks. reflexivity.
Qed.

(** When the planning stage succeeds, the recomputation returns the freshly
    reduced series, whatever happens to the write of the cache entry. *)
Lemma recompute_history_result normalizedUsername cacheKey refreshKey w fallbackArchives w1 :
  plan_archives server clock normalizedUsername w = (Ok fallbackArchives, w1) ->
  fst (recompute_history server clock toIsoDate JSON_stringify normalizedUsername
         cacheKey refreshKey w) =
  Ok (map json_of_sample
        (reduceHistory toIsoDate normalizedUsername
           (archive_games server (requests w1) fallbackArchives))).
Proof.
  intros Hplan. unfold recompute_history. unfold bind at 1. rewrite Hplan.
  unfold bind at 1. rewrite fetchMonthlyArchives_run.
  unfold bind, Date_now, try_catch, ret.
  destruct (setItem _ _ _) as [[u|e] w2]; reflexivity.
Qed.

Lemma recompute_history_write_failure normalizedUsername cacheKey refreshKey w
      fallbackArchives w1 :
  plan_archives server clock normalizedUsername w = (Ok fallbackArchives, w1) ->
  disabled (storage w) <> None \/ full (storage w) <> None ->
  recompute_history server clock toIsoDate JSON_stringify normalizedUsername
    cacheKey refreshKey w =
  (Ok (map json_of_sample
         (reduceHistory toIsoDate normalizedUsername
            (archive_games server (requests w1) fallbackArchives))),
   logged w1 fallbackArchives).
Proof.
  intros Hplan Hfail. unfold recompute_history. unfold bind at 1. rewrite Hplan.
  unfold bind at 1. rewrite fetchMonthlyArchives_run.
  pose proof (plan_archives_storage normalizedUsername w) as Hst.
  rewrite Hplan in Hst. cbn [snd] in Hst.
  unfold bind, Date_now, try_catch, ret, setItem. cbn [storage logged]. rewrite Hst.
  destruct (disabled (storage w)) as [e|].
  - reflexivity.
  - destruct (full (storage w)) as [e|]; [reflexivity|].
    destruct Hfail as [H|H]; contradiction.
Qed.

End CacheFacts.

Lemma recompute_history_throw server clock toIsoDate JSON_stringify
      normalizedUsername cacheKey refreshKey w e w1 :
  plan_archives server clock normalizedUsername w = (Throw e, w1) ->
  recompute_history server clock toIsoDate JSON_stringify normalizedUsername
    cacheKey refreshKey w = (Throw e, w1).
Proof.
  intros Hplan. unfold recompute_history. unfold bind at 1. rewrite Hplan. reflexivity.
Qed.

(** C4.  The cache of [fetchRapidHistory].  A readable store that holds,
    under the prefix and the lower-cased handle, a parseable entry of today
    with an array as history makes the call return that array, with no
    request issued and the store untouched.  A store that cannot be read, a
    missing key, a text that does not parse and an entry of another day all
    lead to the same recomputation.  When the planning stage of the
    recomputation succeeds and the write of the new entry fails, the fresh
    series is returned all the same; an exception of the call is always one
    of the planning stage. *)
Theorem fetchRapidHistory_cache_policy server clock toIsoDate JSON_parse JSON_stringify
        username w :
  let key := cache_key username in
  let today := getUtcRefreshKey (clock (requests w)) in
  let call := fetchRapidHistory server clock toIsoDate JSON_parse JSON_stringify username w in
  let recompute :=
    recompute_history server clock toIsoDate JSON_stringify (JS.toLowerCase username)
      key today w in
  (forall raw cached history,
     disabled (storage w) = None ->
     items (storage w) key = Some raw -> raw <> "" ->
     JSON_parse raw = Some cached ->
     get_field cached "refreshKey" = Some (JString today) ->
     get_field cached "history" = Some (JArray history) ->
     call = (Ok history, w)) /\
  ((disabled (storage w) <> None \/
    items (storage w) key = None \/
    (exists raw, items (storage w) key = Some raw /\ JSON_parse raw = None) \/
    (exists raw cached stale,
       items (storage w) key = Some raw /\ JSON_parse raw = Some cached /\
       get_field cached "refreshKey" = Some (JString stale) /\ stale <> today)) ->
   call = recompute) /\
  (forall fallbackArchives w1,
     plan_archives server clock (JS.toLowerCase username) w = (Ok fallbackArchives, w1) ->
     disabled (storage w) <> None \/ full (storage w) <> None ->
     recompute =
       (Ok (map json_of_sample
              (reduceHistory toIsoDate (JS.toLowerCase username)
                 (archive_games server (requests w1) fallbackArchives))),
        logged w1 fallbackArchives)) /\
  (forall e, fst call = Throw e ->
             fst (plan_archives server clock (JS.toLowerCase username) w) = Throw e).
Proof.
  intros key today call recompute.
  assert (Hcall : call = match usable_entry JSON_parse (storage w) key today with
                         | Some history => (Ok history, w)
                         | None => recompute
                         end) by apply fetchRapidHistory_cache.
  split; [|split; [|split]].
  - intros raw cached history Hd Hraw Hne Hparse Hkey Hhist.
    rewrite Hcall. unfold usable_entry. rewrite Hd, Hraw.
    destruct (String.eqb_spec raw ""); [contradiction|].
    rewrite Hparse, Hkey, Hhist, String.eqb_refl. reflexivity.
  - intros Hmiss. rewrite Hcall.
    replace (usable_entry JSON_parse (storage w) key today) with (@None (list json));
      [reflexivity|].
    unfold usable_entry.
    destruct Hmiss as [H|[H|[[raw [Hraw Hparse]]|[raw [cached [stale [Hraw [Hparse [Hk Hne]]]]]]]]].
    + destruct (disabled (storage w)); [reflexivity|contradiction].
    + rewrite H. destruct (disabled (storage w)); reflexivity.
    + rewrite Hraw, Hparse. destruct (disabled (storage w)); [reflexivity|].
      destruct (String.eqb raw ""); reflexivity.
    + rewrite Hraw, Hparse, Hk. destruct (disabled (storage w)); [reflexivity|].
      destruct (String.eqb raw ""); [reflexivity|].
      destruct (get_field cached "history") as [[| | | |h|]|]; try reflexivity.
      destruct (String.eqb_spec stale today); [contradiction|reflexivity].
  - intros fallbackArchives w1 Hplan Hfail.
    apply recompute_history_write_failure; assumption.
  - intros e He. rewrite Hcall in He.
    destruct (usable_entry JSON_parse (storage w) key today); [discriminate|].
    destruct (plan_archives server clock (JS.toLowerCase username) w) as [[a|e'] w1] eqn:Hplan.
    + unfold recompute in He.
      rewrite (recompute_history_result _ _ _ _ _ _ _ _ _ _ Hplan) in He. discriminate.
    + unfold recompute in He.
      rewrite (recompute_history_throw _ _ _ _ _ _ _ _ _ _ Hplan) in He.
      cbn in He |- *. congruence.
Qed.

(** An entry of today is returned as it is; an entry of yesterday, with a
    store that is full, gives the freshly computed series. *)
Lemma fetchRapidHistory_cache_policy_witness :
  let month := [rated_rapid 1709640000 (player "p1" 1500) (player "p3" 1490);
                rated_rapid 1709650000 (player "p2" 1480) (player "P1" 1510)] in
  let fresh := {| requests := []; storage := scenario_store "today" None |} in
  let stale := {| requests := [];
                  storage := scenario_store "yesterday"
                               (Some (PlatformError "QuotaExceededError" "quota")) |} in
  fetchRapidHistory (scenario_server month) scenario_clock toIsoDate_utc scenario_parse
    scenario_stringify "P1" fresh = (Ok [JNumber 7], fresh) /\
  fetchRapidHistory (scenario_server month) scenario_clock toIsoDate_utc scenario_parse
    scenario_stringify "P1" stale =
    (Ok [json_of_sample {| date := "2024-03-05"; sample_rating := 1510; epoch := 1709650000 |}],
     logged stale scenario_requests).
Proof.
  intros month fresh stale. split.
  - destruct (fetchRapidHistory_cache_policy (scenario_server month) scenario_clock
                toIsoDate_utc scenario_parse scenario_stringify "P1" fresh) as [Hhit _].
    apply (Hhit "today" (JObject [("refreshKey", JString "2024-03-05");
                                  ("history", JArray [JNumber 7]);
                                  ("savedAt", JString "2024-03-05T08:00:00.000Z")]));
      try reflexivity.
    discriminate.
  - destruct (fetchRapidHistory_cache_policy (scenario_server month) scenario_clock
                toIsoDate_utc scenario_parse scenario_stringify "P1" stale)
      as [_ [Hmiss [Hwrite _]]].
    cbv zeta in Hmiss, Hwrite. rewrite Hmiss.
    + rewrite (Hwrite ["https://api.chess.com/pub/player/p1/games/2024/03"]
                 (logged stale ["https://api.chess.com/pub/player/p1";
                                "https://api.chess.com/pub/player/p1/games/archives"])).
      * vm_compute. reflexivity.
      * vm_compute. reflexivity.
      * right. cbn. discriminate.
    + right. right. right.
      exists "yesterday",
        (JObject [("refreshKey", JString "2024-03-04");
                  ("history", JArray [JNumber 7]);
                  ("savedAt", JString "2024-03-04T08:00:00.000Z")]),
        "2024-03-04".
      repeat split; try reflexivity. vm_compute. discriminate.
Defined.

(** ** Head-to-head games *)

Lemma filter_throwing_ok {A} (f : A -> result bool) (p : A -> bool) l :
  (forall x, In x l -> f x = Ok (p x)) -> filter_throwing f l = Ok (filter p l).
Proof.
  induction l as [|x l IH]; intros H; cbn; [reflexivity|].
  rewrite (H x (or_introl eq_refl)), IH by (intros y Hy; apply H; right; exact Hy).
  destruct (p x); reflexivity.
Qed.

Lemma filter_throwing_throw {A} (f : A -> result bool) l x e0 :
  In x l -> f x = Throw e0 ->
  exists y e, In y l /\ f y = Throw e /\ filter_throwing f l = Throw e.
Proof.
  induction l as [|h l IH]; intros Hin Hx; [destruct Hin|].
  cbn. destruct (f h) as [keep|e] eqn:Eh.
  - destruct Hin as [->|Hin]; [congruence|].
    destruct (IH Hin Hx) as [y [e [Hy [Hfy Hrun]]]].
    exists y, e. rewrite Hrun. auto.
  - exists h, e. auto.
Qed.

Lemma is_mutual_named p1 p2 g :
  (rated g = true -> time_class g = "rapid" -> has_usernames g) ->
  is_mutual p1 p2 g = Ok (mutual p1 p2 g).
Proof.
  unfold is_mutual, mutual. intros H.
  destruct (String.eqb_spec (time_class g) "rapid") as [E|E]; [|reflexivity].
  destruct (rated g); [|reflexivity]. cbn.
  destruct (H eq_refl E) as [[w [wu [Hw Hwu]]] [b [bu [Hb Hbu]]]].
  rewrite Hw, Hb. cbn. rewrite Hwu, Hbu. reflexivity.
Qed.

Lemma is_mutual_skipped p1 p2 g :
  rated g = false \/ time_class g <> "rapid" -> is_mutual p1 p2 g = Ok false.
Proof.
  unfold is_mutual. intros [H|H].
  - rewrite H, orb_true_r. reflexivity.
  - destruct (String.eqb_spec (time_class g) "rapid"); [contradiction|reflexivity].
Qed.

Lemma is_mutual_unnamed p1 p2 g :
  rated g = true -> time_class g = "rapid" -> lacks_username g ->
  exists reading, is_mutual p1 p2 g = Throw (TypeError reading).
Proof.
  unfold is_mutual, lacks_username, unnamed, username_lower. intros -> -> H. cbn.
  destruct (white g) as [w|]; [|eexists; reflexivity].
  destruct (username w) as [wu|] eqn:Ew; [|eexists; reflexivity].
  destruct (black g) as [b|]; [|eexists; reflexivity].
  destruct (username b) as [bu|] eqn:Eb; [|eexists; reflexivity].
  exfalso. destruct H as [[H|[p [[= <-] H]]]|[H|[p [[= <-] H]]]]; congruence.
Qed.

Lemma is_mutual_throws_TypeError p1 p2 g e :
  is_mutual p1 p2 g = Throw e -> exists reading, e = TypeError reading.
Proof.
  unfold is_mutual, username_lower.
  destruct (negb (String.eqb (time_class g) "rapid") || negb (rated g)); [discriminate|].
  destruct (white g) as [w|]; [|intros [= <-]; eexists; reflexivity].
  destruct (username w); [|intros [= <-]; eexists; reflexivity].
  destruct (black g) as [b|]; [|intros [= <-]; eexists; reflexivity].
  destruct (username b); [discriminate|intros [= <-]; eexists; reflexivity].
Qed.

Lemma fetchGamesBetween_run server clock player1 player2 w archives w1 :
  plan_archives server clock (JS.toLowerCase player1) w = (Ok archives, w1) ->
  fetchGamesBetween server clock player1 player2 w =
  (match filter_throwing (is_mutual (JS.toLowerCase player1) (JS.toLowerCase player2))
           (archive_games server (requests w1) archives) with
   | Ok mutualGames => Ok (JS.sort newest_first mutualGames)
   | Throw e => Throw e
   end,
   logged w1 archives).
Proof.
  intros Hplan. unfold fetchGamesBetween. unfold bind at 1. rewrite Hplan.
  unfold bind at 1. rewrite fetchMonthlyArchives_run.
  unfold bind, lift, ret.
  destruct (filter_throwing _ _); reflexivity.
Qed.

Lemma newest_first_sorted l :
  StronglySorted (fun a b => end_time b <= end_time a) (JS.sort newest_first l).
Proof.
  assert (H : StronglySorted (fun a b => newest_first a b <= 0) (JS.sort newest_first l)).
  { apply sort_sorted; unfold newest_first; intros; lia. }
  induction H as [|a t Hs IH Hall]; constructor; [exact IH|].
  eapply Forall_impl; [|exact Hall]. unfold newest_first. intros b Hb. lia.
Qed.

(** C7.  When the planning stage for the first handle succeeds and the rated
    rapid records of its archives name both players, [fetchGamesBetween]
    returns exactly the games of those archives that are rated, rapid and
    played by the two handles (lower-cased, either colour assignment),
    newest first, each kept as often as it occurs; a game with a player
    that is neither handle is not in the result. *)
Theorem fetchGamesBetween_mutual server clock player1 player2 w archives w1 :
  let p1 := JS.toLowerCase player1 in
  let p2 := JS.toLowerCase player2 in
  let allGames := archive_games server (requests w1) archives in
  plan_archives server clock p1 w = (Ok archives, w1) ->
  (forall g, In g allGames -> rated g = true -> time_class g = "rapid" -> has_usernames g) ->
  exists mutualGames,
    fetchGamesBetween server clock player1 player2 w = (Ok mutualGames, logged w1 archives) /\
    mutualGames = JS.sort newest_first (filter (mutual p1 p2) allGames) /\
    Permutation mutualGames (filter (mutual p1 p2) allGames) /\
    StronglySorted (fun a b => end_time b <= end_time a) mutualGames /\
    (forall g, In g mutualGames <->
               In g allGames /\ rated g = true /\ time_class g = "rapid" /\
               exists w0 b0 wu bu,
                 white g = Some w0 /\ black g = Some b0 /\
                 username w0 = Some wu /\ username b0 = Some bu /\
                 ((JS.toLowerCase wu = p1 /\ JS.toLowerCase bu = p2) \/
                  (JS.toLowerCase wu = p2 /\ JS.toLowerCase bu = p1))).
Proof.
  intros p1 p2 allGames Hplan Hnamed.
  exists (JS.sort newest_first (filter (mutual p1 p2) allGames)).
  split.
  { rewrite (fetchGamesBetween_run _ _ _ _ _ _ _ Hplan).
    fold p1 p2 allGames.
    rewrite (filter_throwing_ok _ (mutual p1 p2)); [reflexivity|].
    intros g Hg. apply is_mutual_named. auto. }
  split; [reflexivity|]. split; [apply sort_perm|]. split; [apply newest_first_sorted|].
  intros g. rewrite sort_In, filter_In. unfold mutual.
  split.
  - intros [Hin Hm]. split; [exact Hin|].
    apply andb_true_iff in Hm. destruct Hm as [Hrr Hm].
    apply andb_true_iff in Hrr. destruct Hrr as [Hr Hrated].
    apply String.eqb_eq in Hr. split; [exact Hrated|]. split; [exact Hr|].
    destruct (white g) as [w0|]; [|discriminate].
    destruct (black g) as [b0|]; [|discriminate].
    destruct (username w0) as [wu|] eqn:Ewu; [|discriminate].
    destruct (username b0) as [bu|] eqn:Ebu; [|discriminate].
    exists w0, b0, wu, bu.
    split; [reflexivity|]. split; [reflexivity|]. split; [exact Ewu|].
    split; [exact Ebu|].
    apply orb_true_iff in Hm.
    destruct Hm as [Hm|Hm]; apply andb_true_iff in Hm; destruct Hm as [H1 H2];
      apply String.eqb_eq in H1, H2; auto.
  - intros [Hin [Hrated [Hr [w0 [b0 [wu [bu [Hw [Hb [Hwu [Hbu Hm]]]]]]]]]]].
    split; [exact Hin|]. rewrite Hrated, Hr, Hw, Hb, Hwu, Hbu. cbn.
    destruct Hm as [[-> ->]|[-> ->]]; rewrite !String.eqb_refl; cbn;
      [reflexivity|apply orb_true_r].
Qed.

(** The scenario of the specification: of a game of p1 against p3 and a
    game of p2 against p1, only the second is returned. *)
Lemma fetchGamesBetween_mutual_witness :
  let third := rated_rapid 1709640000 (player "p1" 1500) (player "p3" 1490) in
  let second := rated_rapid 1709650000 (player "p2" 1480) (player "P1" 1510) in
  let w := {| requests := []; storage := scenario_store "today" None |} in
  fetchGamesBetween (scenario_server [third; second]) scenario_clock "P1" "p2" w =
    (Ok [second], logged w scenario_requests).
Proof.
  intros third second w.
  destruct (fetchGamesBetween_mutual (scenario_server [third; second]) scenario_clock
              "P1" "p2" w ["https://api.chess.com/pub/player/p1/games/2024/03"]
              (logged w ["https://api.chess.com/pub/player/p1";
                         "https://api.chess.com/pub/player/p1/games/archives"]))
    as [mutualGames [Hrun [Hsort _]]].
  - vm_compute. reflexivity.
  - intros g Hin _ _. vm_compute in Hin.
    destruct Hin as [<-|[<-|[]]]; split; eexists; eexists; split; reflexivity.
  - rewrite Hrun, Hsort. vm_compute. reflexivity.
Defined.

Lemma unnamed_not_matched side normalizedUsername :
  unnamed side -> side_is side normalizedUsername = false.
Proof.
  unfold unnamed, side_is. intros [->|[p [-> Hp]]]; [reflexivity|].
  rewrite Hp. reflexivity.
Qed.

(** C10 (as the code has it).  The filter of [fetchGamesBetween] leaves
    a record that is unrated or not rapid out before it looks at the
    players.  For a rated rapid record it reads the username of white and
    then of black without a guard: when the planning stage succeeds and the
    fetched archives hold a rated rapid record with a missing or unnamed
    side, the call throws a [TypeError].  The loop of [fetchRapidHistory]
    reads the same fields through guarded access: a missing or unnamed side
    is a side that does not match, and a record with two such sides is
    dropped. *)
Theorem fetchGamesBetween_unguarded server clock player1 player2 w archives w1 :
  let p1 := JS.toLowerCase player1 in
  let p2 := JS.toLowerCase player2 in
  let allGames := archive_games server (requests w1) archives in
  plan_archives server clock p1 w = (Ok archives, w1) ->
  (forall g, In g allGames -> rated g = true -> time_class g = "rapid" ->
             lacks_username g ->
             exists reading,
               fetchGamesBetween server clock player1 player2 w =
                 (Throw (TypeError reading), logged w1 archives)) /\
  (forall g, rated g = false \/ time_class g <> "rapid" -> is_mutual p1 p2 g = Ok false) /\
  (forall g normalizedUsername,
     (unnamed (white g) -> side_is (white g) normalizedUsername = false) /\
     (unnamed (black g) -> side_is (black g) normalizedUsername = false) /\
     (unnamed (white g) -> unnamed (black g) -> disqualified normalizedUsername g)).
Proof.
  intros p1 p2 allGames Hplan. split; [|split].
  - intros g Hin Hrated Hrapid Hlacks.
    destruct (is_mutual_unnamed p1 p2 g Hrated Hrapid Hlacks) as [reading0 Hg].
    destruct (filter_throwing_throw (is_mutual p1 p2) allGames g _ Hin Hg)
      as [y [e [_ [Hy Hrun]]]].
    destruct (is_mutual_throws_TypeError _ _ _ _ Hy) as [reading ->].
    exists reading. rewrite (fetchGamesBetween_run _ _ _ _ _ _ _ Hplan).
    fold p1 p2 allGames. rewrite Hrun. reflexivity.
  - intros g. apply is_mutual_skipped.
  - intros g n.
    split; [apply unnamed_not_matched|]. split; [apply unnamed_not_matched|].
    intros Hw Hb. right. right. left.
    split; apply unnamed_not_matched; assumption.
Qed.

(** A rated rapid record without a white side makes the call throw. *)
Lemma fetchGamesBetween_unguarded_witness :
  let broken := rated_rapid 1709640000 None (player "p1" 1500) in
  let w := {| requests := []; storage := scenario_store "today" None |} in
  lacks_username broken /\
  fetchGamesBetween (scenario_server [broken]) scenario_clock "p1" "p2" w =
    (Throw (TypeError "username"), logged w scenario_requests).
Proof.
  intros broken w.
  assert (Hlacks : lacks_username broken) by (left; left; reflexivity).
  split; [exact Hlacks|].
  destruct (fetchGamesBetween_unguarded (scenario_server [broken]) scenario_clock
              "p1" "p2" w ["https://api.chess.com/pub/player/p1/games/2024/03"]
              (logged w ["https://api.chess.com/pub/player/p1";
                         "https://api.chess.com/pub/player/p1/games/archives"]))
    as [Hthrow _].
  - vm_compute. reflexivity.
  - assert (Hin : In broken
                    (archive_games (scenario_server [broken])
                       (requests (logged w ["https://api.chess.com/pub/player/p1";
                                            "https://api.chess.com/pub/player/p1/games/archives"]))
                       ["https://api.chess.com/pub/player/p1/games/2024/03"]))
      by (left; reflexivity).
    destruct (Hthrow broken Hin eq_refl eq_refl Hlacks) as [reading Hrun].
    rewrite Hrun. f_equal.
    rewrite (fetchGamesBetween_run _ _ _ _ _
               ["https://api.chess.com/pub/player/p1/games/2024/03"]
               (logged w ["https://api.chess.com/pub/player/p1";
                          "https://api.chess.com/pub/player/p1/games/archives"]))
      in Hrun by (vm_compute; reflexivity).
    vm_compute in Hrun. injection Hrun as Hr. congruence.
Defined.

(** C10, the claim as worded: a blitz record without a white side does
    not make the call throw; it is left out like any record that is not a
    rated rapid game. *)
Lemma fetchGamesBetween_skips_other_classes :
  let blitz := {| end_time := 1709640000; time_class := "blitz"; rated := true;
                  white := None; black := player "p1" 1500 |} in
  let w := {| requests := []; storage := scenario_store "today" None |} in
  lacks_username blitz /\
  fetchGamesBetween (scenario_server [blitz]) scenario_clock "p1" "p2" w =
    (Ok [], logged w scenario_requests).
Proof.
  intros blitz w. split; [left; left; reflexivity|].
  rewrite (fetchGamesBetween_run _ _ _ _ _
             ["https://api.chess.com/pub/player/p1/games/2024/03"]
             (logged w ["https://api.chess.com/pub/player/p1";
                        "https://api.chess.com/pub/player/p1/games/archives"]))
    by (vm_compute; reflexivity).
  vm_compute. reflexivity.
Qed.

(** * Further properties of the program *)

(** ** The reducer: which days, which order, more games *)

Lemma later_of_assoc s x y :
  later_of s (merge_day x y) = later_of (later_of s x) y.
Proof.
  destruct x as [p|]; [|reflexivity]. destruct y as [q|]; cbn.
  - destruct (Z.ltb_spec (epoch p) (epoch q)); destruct (Z.ltb_spec (epoch s) (epoch p));
      repeat match goal with |- context [?a <? ?b] => destruct (Z.ltb_spec a b) end;
      try reflexivity; lia.
  - destruct (Z.ltb_spec (epoch s) (epoch p)); reflexivity.
Qed.

Lemma day_best_app offer d l l' :
  day_best offer d (l ++ l') = merge_day (day_best offer d l) (day_best offer d l').
Proof.
  induction l as [|g l IH]; cbn [app day_best]; [reflexivity|].
  rewrite IH. destruct (offer g) as [s|]; [|reflexivity].
  destruct (String.eqb (date s) d); [|reflexivity].
  cbn [merge_day]. f_equal. apply later_of_assoc.
Qed.

(** X1.  The series has a sample for a day exactly when a qualifying game
    ends on that day; the sample is the one offered by such a game, and its
    epoch is the largest [end_time] among the qualifying games of the day. *)
Theorem reduceHistory_covers_days toIsoDate normalizedUsername monthlyGames d :
  match sample_on d (reduceHistory toIsoDate normalizedUsername monthlyGames) with
  | Some s =>
      date s = d /\
      (exists g, In g monthlyGames /\ candidate toIsoDate normalizedUsername g = Some s) /\
      (forall g' s', In g' monthlyGames ->
                     candidate toIsoDate normalizedUsername g' = Some s' ->
                     date s' = d -> epoch s' <= epoch s)
  | None =>
      forall g s, In g monthlyGames ->
                  candidate toIsoDate normalizedUsername g = Some s -> date s <> d
  end.
Proof.
  rewrite reduceHistory_day.
  pose proof (day_best_spec (candidate toIsoDate normalizedUsername) d monthlyGames) as H.
  destruct (day_best (candidate toIsoDate normalizedUsername) d monthlyGames) as [s|].
  - destruct H as [Hg [Hd Hmax]]. auto.
  - exact H.
Qed.

(** X2.  The order of the input matters for equally late games only: when
    equally late qualifying games of one day offer the same sample, every
    reordering of the input gives the same series. *)
Theorem reduceHistory_order_irrelevant toIsoDate normalizedUsername monthlyGames reordered :
  (forall g1 g2 s1 s2,
     In g1 monthlyGames -> In g2 monthlyGames ->
     candidate toIsoDate normalizedUsername g1 = Some s1 ->
     candidate toIsoDate normalizedUsername g2 = Some s2 ->
     date s1 = date s2 -> epoch s1 = epoch s2 -> s1 = s2) ->
  Permutation monthlyGames reordered ->
  reduceHistory toIsoDate normalizedUsername monthlyGames =
  reduceHistory toIsoDate normalizedUsername reordered.
Proof.
  intros Hties Hperm. apply reduceHistory_ext. intros d.
  pose proof (day_best_spec (candidate toIsoDate normalizedUsername) d monthlyGames) as H1.
  pose proof (day_best_spec (candidate toIsoDate normalizedUsername) d reordered) as H2.
  assert (Hin : forall g, In g reordered <-> In g monthlyGames).
  { intros g. split; apply Permutation_in; [symmetry|]; exact Hperm. }
  destruct (day_best _ d monthlyGames) as [b|]; destruct (day_best _ d reordered) as [b'|].
  - destruct H1 as [[g [Hg Hb]] [Hd Hmax]]. destruct H2 as [[g' [Hg' Hb']] [Hd' Hmax']].
    apply Hin in Hg'. f_equal.
    apply (Hties g g' b b' Hg Hg' Hb Hb'); [congruence|].
    specialize (Hmax _ _ Hg' Hb' Hd'). apply Hin in Hg.
    specialize (Hmax' _ _ Hg Hb Hd). lia.
  - destruct H1 as [[g [Hg Hb]] [Hd _]]. apply Hin in Hg.
    exfalso. exact (H2 _ _ Hg Hb Hd).
  - destruct H2 as [[g [Hg Hb]] [Hd _]]. apply Hin in Hg.
    exfalso. exact (H1 _ _ Hg Hb Hd).
  - reflexivity.
Qed.

(** Three games of alice on two days, none equally late: the series is the
    same whichever way they are listed. *)
Lemma reduceHistory_order_irrelevant_witness :
  let a := rated_rapid 1709640000 (player "alice" 1500) (player "bob" 1490) in
  let b := rated_rapid 1709650000 (player "carol" 1300) (player "alice" 1510) in
  let c := rated_rapid 1709730000 (player "alice" 1520) (player "dave" 1410) in
  reduceHistory toIsoDate_utc "alice" [a; b; c] =
  reduceHistory toIsoDate_utc "alice" [c; b; a].
Proof.
  intros a b c.
  apply (reduceHistory_order_irrelevant toIsoDate_utc "alice" [a; b; c] [c; b; a]).
  - intros g1 g2 s1 s2 H1 H2 E1 E2 _ He.
    cbn [In] in H1, H2.
    destruct H1 as [<-|[<-|[<-|[]]]]; destruct H2 as [<-|[<-|[<-|[]]]];
      vm_compute in E1, E2; injection E1 as <-; injection E2 as <-;
      first [reflexivity | cbn in He; discriminate].
  - apply Permutation_rev with (l := [a; b; c]).
Defined.

(** X3.  More games never lose a day: when further games are appended to
    the input, every day that had a sample keeps one, with an epoch at least
    as large, and keeps the very same sample unless a further qualifying
    game of that day ends strictly later. *)
Theorem reduceHistory_more_games toIsoDate normalizedUsername monthlyGames further d s :
  sample_on d (reduceHistory toIsoDate normalizedUsername monthlyGames) = Some s ->
  exists s',
    sample_on d (reduceHistory toIsoDate normalizedUsername (monthlyGames ++ further))
      = Some s' /\
    epoch s <= epoch s' /\
    ((forall g t, In g further -> candidate toIsoDate normalizedUsername g = Some t ->
                  date t = d -> epoch t <= epoch s) -> s' = s).
Proof.
  rewrite !reduceHistory_day, day_best_app. intros ->. cbn [merge_day].
  exists (later_of s (day_best (candidate toIsoDate normalizedUsername) d further)).
  split; [reflexivity|].
  pose proof (day_best_spec (candidate toIsoDate normalizedUsername) d further) as Hspec.
  destruct (day_best (candidate toIsoDate normalizedUsername) d further) as [b|]; cbn.
  - destruct (Z.ltb_spec (epoch s) (epoch b)) as [Hlt|Hge].
    + split; [lia|]. intros Hno.
      destruct Hspec as [[g [Hg Hb]] [Hd _]]. specialize (Hno _ _ Hg Hb Hd). lia.
    + split; [lia|reflexivity].
  - split; [lia|reflexivity].
Qed.

(** A second month of games of alice: the day of the first month keeps its
    sample. *)
Lemma reduceHistory_more_games_witness :
  let a := rated_rapid 1709640000 (player "alice" 1500) (player "bob" 1490) in
  let c := rated_rapid 1709730000 (player "alice" 1520) (player "dave" 1410) in
  let s := {| date := "2024-03-05"; sample_rating := 1500; epoch := 1709640000 |} in
  sample_on "2024-03-05" (reduceHistory toIsoDate_utc "alice" [a]) = Some s /\
  sample_on "2024-03-05" (reduceHistory toIsoDate_utc "alice" [a; c]) = Some s.
Proof.
  intros a c s.
  assert (H : sample_on "2024-03-05" (reduceHistory toIsoDate_utc "alice" [a]) = Some s)
    by (vm_compute; reflexivity).
  split; [exact H|].
  destruct (reduceHistory_more_games toIsoDate_utc "alice" [a] [c] "2024-03-05" s H)
    as [s' [Hs' [_ Hsame]]].
  cbn [app] in Hs'. rewrite Hs'. f_equal. apply Hsame.
  intros g t [<-|[]] Ht Hd. vm_compute in Ht. injection Ht as <-.
  vm_compute in Hd. discriminate.
Defined.

(** ** The refresh key *)

Lemma length_append a b : String.length (a ++ b) = (String.length a + String.length b)%nat.
Proof. induction a as [|c a IH]; cbn; [reflexivity|]. rewrite IH. reflexivity. Qed.

Lemma append_assoc a b c : (a ++ b) ++ c = a ++ (b ++ c).
Proof. induction a as [|x a IH]; cbn; [reflexivity|]. rewrite IH. reflexivity. Qed.

Lemma substring_all a : substring 0 (String.length a) a = a.
Proof. induction a as [|c a IH]; cbn; [reflexivity|]. rewrite IH. reflexivity. Qed.

Lemma substring_prefix_app n : forall a b,
  (n <= String.length a)%nat -> substring 0 n (a ++ b) = substring 0 n a.
Proof.
  induction n as [|n IH]; intros a b H.
  - destruct a; destruct b; reflexivity.
  - destruct a as [|c a]; cbn in H; [lia|]. cbn. rewrite IH by lia. reflexivity.
Qed.

Lemma append_inj_length a : forall a' x x',
  String.length a = String.length a' -> a ++ x = a' ++ x' -> a = a' /\ x = x'.
Proof.
  induction a as [|c a IH]; intros [|c' a'] x x' Hl H; cbn in Hl; try discriminate.
  - auto.
  - cbn in H. injection H as -> H. destruct (IH a' x x') as [-> ->]; [lia|exact H|auto].
Qed.

Lemma repeat_zero_length k : String.length (JS.repeat_string "0" k) = k.
Proof. induction k as [|k IH]; cbn; [reflexivity|]. rewrite IH. reflexivity. Qed.

Lemma padStart_zero_length n s :
  String.length (JS.padStart n "0" s) = Nat.max n (String.length s).
Proof.
  unfold JS.padStart.
  rewrite length_append.
  rewrite <- (repeat_zero_length (n - String.length s)) at 1.
  rewrite substring_all, repeat_zero_length. lia.
Qed.

Lemma iso_date_length days : (10 <= String.length (iso_date days))%nat.
Proof.
  unfold iso_date. destruct (JS.civil_from_days days) as [[y m] d].
  rewrite !length_append. unfold JS.pad at 1 2. rewrite !padStart_zero_length.
  assert (4 <= String.length (JS.iso_year y))%nat.
  { unfold JS.iso_year, JS.pad.
    destruct ((0 <=? y) && (y <=? 9999)); [|rewrite length_append];
      rewrite padStart_zero_length; lia. }
  cbn [String.length]. lia.
Qed.

Lemma toISOString_date t : exists rest, JS.toISOString t = iso_date (JS.Day t) ++ rest.
Proof.
  unfold JS.toISOString, iso_date. destruct (JS.civil_from_days (JS.Day t)) as [[y m] d].
  eexists. rewrite !append_assoc. reflexivity.
Qed.

Lemma getUtcRefreshKey_date t :
  getUtcRefreshKey t = substring 0 10 (iso_date (JS.Day t)).
Proof.
  unfold getUtcRefreshKey, JS.slice0. destruct (toISOString_date t) as [rest ->].
  apply substring_prefix_app, iso_date_length.
Qed.

Lemma pad_reads_back_spec n bound v :
  pad_reads_back n bound = true -> 0 <= v < bound ->
  String.length (JS.pad n v) = n /\ digits_value (JS.pad n v) = Some v.
Proof.
  unfold pad_reads_back. intros H Hv. rewrite forallb_forall in H.
  specialize (H (Z.to_nat v)). rewrite Z2Nat.id in H by lia.
  assert (Hin : In (Z.to_nat v) (seq 0 (Z.to_nat bound))) by (apply in_seq; lia).
  apply H in Hin. apply andb_true_iff in Hin. destruct Hin as [Hlen Hval].
  apply Nat.eqb_eq in Hlen. split; [exact Hlen|].
  destruct (digits_value (JS.pad n v)) as [v'|]; [|discriminate].
  apply Z.eqb_eq in Hval. congruence.
Qed.

Lemma pad4_reads_back : pad_reads_back 4 10000 = true.
Proof. vm_compute. reflexivity. Qed.

Lemma pad2_reads_back : pad_reads_back 2 100 = true.
Proof. vm_compute. reflexivity. Qed.

Lemma civil_day_range days : 1 <= snd (JS.civil_from_days days) <= 31.
Proof.
  unfold JS.civil_from_days. cbv zeta. cbn [fst snd].
  set (z := days + 719468).
  set (era := z / 146097).
  set (doe := z - era * 146097).
  assert (Hdoe : 0 <= doe < 146097) by (subst doe era; Z.div_mod_to_equations; lia).
  clearbody doe. clear z era.
  set (yoe := (doe - doe / 1460 + doe / 36524 - doe / 146096) / 365).
  set (doy := doe - (365 * yoe + yoe / 4 - yoe / 100)).
  assert (Hdoy : 0 <= doy <= 365) by (subst doy yoe; Z.div_mod_to_equations; lia).
  clearbody doy. clear yoe.
  Z.div_mod_to_equations. lia.
Qed.

(** In the years 0 to 9999 the date part is ten characters long and
    determines the day. *)
Lemma iso_date_in_range days :
  0 <= fst (fst (JS.civil_from_days days)) <= 9999 ->
  String.length (iso_date days) = 10%nat.
Proof.
  intros Hy. unfold iso_date.
  pose proof (civil_month_range days) as Hm. pose proof (civil_day_range days) as Hd.
  destruct (JS.civil_from_days days) as [[y m] d]. cbn [fst snd] in *.
  unfold JS.iso_year.
  replace ((0 <=? y) && (y <=? 9999)) with true
    by (symmetry; apply andb_true_iff; split; apply Z.leb_le; lia).
  rewrite !length_append.
  destruct (pad_reads_back_spec 4 10000 y pad4_reads_back) as [-> _]; [lia|].
  destruct (pad_reads_back_spec 2 100 m pad2_reads_back) as [-> _]; [lia|].
  destruct (pad_reads_back_spec 2 100 d pad2_reads_back) as [-> _]; [lia|].
  reflexivity.
Qed.

Lemma iso_date_inj days days' :
  0 <= fst (fst (JS.civil_from_days days)) <= 9999 ->
  0 <= fst (fst (JS.civil_from_days days')) <= 9999 ->
  iso_date days = iso_date days' -> days = days'.
Proof.
  intros Hy Hy' H.
  pose proof (days_from_civil_round_trip days) as R.
  pose proof (days_from_civil_round_trip days') as R'.
  pose proof (civil_month_range days) as Hm. pose proof (civil_day_range days) as Hd.
  pose proof (civil_month_range days') as Hm'. pose proof (civil_day_range days') as Hd'.
  unfold iso_date in H.
  destruct (JS.civil_from_days days) as [[y m] d].
  destruct (JS.civil_from_days days') as [[y' m'] d']. cbn [fst snd] in *.
  unfold JS.iso_year in H.
  replace ((0 <=? y) && (y <=? 9999)) with true in H
    by (symmetry; apply andb_true_iff; split; apply Z.leb_le; lia).
  replace ((0 <=? y') && (y' <=? 9999)) with true in H
    by (symmetry; apply andb_true_iff; split; apply Z.leb_le; lia).
  destruct (pad_reads_back_spec 4 10000 y pad4_reads_back) as [Ly Vy]; [lia|].
  destruct (pad_reads_back_spec 4 10000 y' pad4_reads_back) as [Ly' Vy']; [lia|].
  destruct (pad_reads_back_spec 2 100 m pad2_reads_back) as [Lm Vm]; [lia|].
  destruct (pad_reads_back_spec 2 100 m' pad2_reads_back) as [Lm' Vm']; [lia|].
  destruct (pad_reads_back_spec 2 100 d pad2_reads_back) as [Ld Vd]; [lia|].
  destruct (pad_reads_back_spec 2 100 d' pad2_reads_back) as [Ld' Vd']; [lia|].
  apply append_inj_length in H; [|congruence]. destruct H as [Ey H].
  cbn [append] in H. injection H as H.
  apply append_inj_length in H; [|congruence]. destruct H as [Em H].
  cbn [append] in H. injection H as Ed.
  rewrite Ey in Vy. rewrite Em in Vm. rewrite Ed in Vd.
  assert (y = y') by congruence. assert (m = m') by congruence.
  assert (d = d') by congruence. subst. congruence.
Qed.

(** X4.  The refresh key names the UTC day.  Two instants of one UTC day
    have the same key; in the years 0 to 9999 the key has ten characters,
    and two instants with the same key lie in the same UTC day. *)
Theorem getUtcRefreshKey_names_the_day :
  (forall t1 t2, JS.Day t1 = JS.Day t2 -> getUtcRefreshKey t1 = getUtcRefreshKey t2) /\
  (forall t, 0 <= JS.YearFromTime t <= 9999 ->
             String.length (getUtcRefreshKey t) = 10%nat) /\
  (forall t1 t2,
     0 <= JS.YearFromTime t1 <= 9999 -> 0 <= JS.YearFromTime t2 <= 9999 ->
     getUtcRefreshKey t1 = getUtcRefreshKey t2 -> JS.Day t1 = JS.Day t2).
Proof.
  assert (Hkey : forall t, 0 <= JS.YearFromTime t <= 9999 ->
                           getUtcRefreshKey t = iso_date (JS.Day t)).
  { intros t Hy. rewrite getUtcRefreshKey_date.
    rewrite <- (iso_date_in_range (JS.Day t) Hy). apply substring_all. }
  split; [|split].
  - intros t1 t2 H. rewrite !getUtcRefreshKey_date, H. reflexivity.
  - intros t Hy. rewrite (Hkey t Hy). apply iso_date_in_range, Hy.
  - intros t1 t2 H1 H2 H. rewrite (Hkey t1 H1), (Hkey t2 H2) in H.
    apply iso_date_inj; assumption.
Qed.

(** The last millisecond of 2024-03-05 has the key of that day's first
    millisecond; the next millisecond has another key. *)
Lemma getUtcRefreshKey_names_the_day_witness :
  getUtcRefreshKey 1709683199999 = getUtcRefreshKey 1709596800000 /\
  (getUtcRefreshKey 1709683200000 = getUtcRefreshKey 1709683199999 -> False).
Proof.
  destruct getUtcRefreshKey_names_the_day as [Hsame [_ Hdiff]].
  split.
  - apply Hsame. vm_compute. reflexivity.
  - intros H. apply Hdiff in H; [vm_compute in H; discriminate| |];
      vm_compute; split; discriminate.
Defined.

(** ** Chunks *)

Lemma chunks_step {A} chunkSize (l : list A) :
  chunks chunkSize l =
  match l with
  | [] => []
  | _ => firstn (Pos.to_nat chunkSize) l :: chunks chunkSize (skipn (Pos.to_nat chunkSize) l)
  end.
Proof. destruct l; simp chunks; reflexivity. Qed.

Lemma chunks_nth {A} chunkSize i : forall l : list A,
  nth_error (chunks chunkSize l) i =
  if (i * Pos.to_nat chunkSize <? List.length l)%nat
  then Some (firstn (Pos.to_nat chunkSize) (skipn (i * Pos.to_nat chunkSize) l))
  else None.
Proof.
  pose proof (Pos2Nat.is_pos chunkSize) as Hpos.
  induction i as [|i IH]; intros l; rewrite chunks_step; destruct l as [|x l].
  - reflexivity.
  - reflexivity.
  - cbn [nth_error List.length].
    destruct (Nat.ltb_spec (S i * Pos.to_nat chunkSize) 0); [lia|reflexivity].
  - cbn [nth_error]. rewrite IH, length_skipn, skipn_skipn.
    replace (i * Pos.to_nat chunkSize + Pos.to_nat chunkSize)%nat
      with (S i * Pos.to_nat chunkSize)%nat by lia.
    destruct (Nat.ltb_spec (i * Pos.to_nat chunkSize)
                (List.length (x :: l) - Pos.to_nat chunkSize));
      destruct (Nat.ltb_spec (S i * Pos.to_nat chunkSize) (List.length (x :: l)));
      try reflexivity; lia.
Qed.

(** X5.  The chunks of [fetchMonthlyArchives] are the slices
    [monthUrls.slice(i * chunkSize, (i + 1) * chunkSize)] for the [i] with
    [i * chunkSize < monthUrls.length]: put together they are the list, and
    each holds at least one and at most [chunkSize] URLs. *)
Theorem chunks_are_slices {A} chunkSize (l : list A) :
  List.concat (chunks chunkSize l) = l /\
  Forall (fun c => (0 < List.length c <= Pos.to_nat chunkSize)%nat) (chunks chunkSize l) /\
  forall i,
    nth_error (chunks chunkSize l) i =
    if (i * Pos.to_nat chunkSize <? List.length l)%nat
    then Some (firstn (Pos.to_nat chunkSize) (skipn (i * Pos.to_nat chunkSize) l))
    else None.
Proof.
  split; [apply concat_chunks|]. split; [apply chunks_bounded|].
  intros i. apply chunks_nth.
Qed.

(** ** The planning stage *)

Section PlanFacts.
Variable server : list string -> string -> http_outcome.
Variable clock : list string -> Z.

Lemma fetchJson_fetched url w :
  fetchJson server url w = (fetched url (server (requests w) url), logged w [url]).
Proof.
  unfold fetchJson, fetched, logged.
  destruct (server (requests w) url) as [e|status [v|e]]; [reflexivity|..];
    destruct (response_ok status); reflexivity.
Qed.

Lemma plan_archives_run normalizedUsername w :
  plan_archives server clock normalizedUsername w =
  match fetched (profile_url normalizedUsername)
          (server (requests w) (profile_url normalizedUsername)) with
  | Throw e => (Throw e, logged w [profile_url normalizedUsername])
  | Ok profileData =>
      let now := clock (requests w ++ [profile_url normalizedUsername])%list in
      let monthUrls :=
        getMonthUrlsFromJoined now normalizedUsername (joined_of profileData) in
      match monthUrls with
      | _ :: _ => (Ok monthUrls, logged w [profile_url normalizedUsername])
      | [] =>
          (match fetched (index_url normalizedUsername)
                   (server (requests w ++ [profile_url normalizedUsername])%list
                      (index_url normalizedUsername)) with
           | Ok index => archives_or_empty index
           | Throw e => Throw e
           end,
           logged w [profile_url normalizedUsername; index_url normalizedUsername])
      end
  end.
Proof.
  unfold plan_archives. fold (profile_url normalizedUsername) (index_url normalizedUsername).
  unfold bind at 1. rewrite fetchJson_fetched.
  destruct (fetched _ _) as [profileData|e]; [|reflexivity].
  unfold bind at 1. unfold Date_now at 1. cbn [logged requests]. cbv zeta.
  destruct (getMonthUrlsFromJoined _ normalizedUsername (joined_of profileData))
    as [|u us] eqn:E; cbn [List.length Nat.ltb Nat.leb].
  - unfold bind, lift. rewrite fetchJson_fetched. cbn [logged requests storage].
    unfold logged. cbn [requests storage]. rewrite <- app_assoc. cbn [app].
    destruct (fetched _ _); reflexivity.
  - reflexivity.
Qed.

End PlanFacts.

Lemma getMonthUrlsFromJoined_nonempty now username j :
  JS.TimeClip (j * 1000) = Some (j * 1000) ->
  month_index (JS.YearFromTime (j * 1000)) (JS.MonthFromTime (j * 1000) + 1)
    <= month_index (JS.YearFromTime now) (JS.MonthFromTime now + 1) ->
  getMonthUrlsFromJoined now username (Finite j) <> [].
Proof.
  intros Hclip Hle. unfold getMonthUrlsFromJoined. rewrite Hclip.
  cbn [JS.getUTCFullYear JS.getUTCMonth option_map].
  pose proof (MonthFromTime_range (j * 1000)) as Hj.
  pose proof (MonthFromTime_range now) as Hn.
  assert (H1 : 1 <= JS.MonthFromTime now + 1 <= 12) by lia.
  assert (H2 : 1 <= JS.MonthFromTime (j * 1000) + 1 <= 12) by lia.
  rewrite (month_loop_spec username (JS.YearFromTime now) (JS.MonthFromTime now + 1) _ H1
             (JS.YearFromTime (j * 1000)) (JS.MonthFromTime (j * 1000) + 1) H2 eq_refl).
  remember (month_index (JS.YearFromTime (j * 1000)) (JS.MonthFromTime (j * 1000) + 1)) as s.
  remember (month_index (JS.YearFromTime now) (JS.MonthFromTime now + 1)) as e.
  destruct (Z.to_nat (e - s + 1)) as [|k] eqn:E; [lia|].
  rewrite months_from_S. discriminate.
Qed.

Section PlanProperties.
Variable server : list string -> string -> http_outcome.
Variable clock : list string -> Z.

Lemma plan_archives_world normalizedUsername w :
  exists urls, snd (plan_archives server clock normalizedUsername w) = logged w urls.
Proof.
  rewrite plan_archives_run.
  destruct (fetched _ _) as [profileData|e]; [|eexists; reflexivity].
  cbv zeta. destruct (getMonthUrlsFromJoined _ _ _); eexists; reflexivity.
Qed.

(** X6.  A profile with a usable join date needs no archive index: when
    the profile request succeeds, [joined] is a finite number that denotes a
    date and the join month is not after the current month, the planning
    stage issues that one request and returns the month URLs of
    [getMonthUrlsFromJoined], of which there is at least one. *)
Theorem plan_archives_from_join_date normalizedUsername w status profileData j :
  server (requests w) (profile_url normalizedUsername) = Response status (JsonBody profileData) ->
  response_ok status = true ->
  joined_of profileData = Finite j ->
  JS.TimeClip (j * 1000) = Some (j * 1000) ->
  let now := clock (requests w ++ [profile_url normalizedUsername])%list in
  month_index (JS.YearFromTime (j * 1000)) (JS.MonthFromTime (j * 1000) + 1)
    <= month_index (JS.YearFromTime now) (JS.MonthFromTime now + 1) ->
  plan_archives server clock normalizedUsername w =
    (Ok (getMonthUrlsFromJoined now normalizedUsername (Finite j)),
     logged w [profile_url normalizedUsername]) /\
  getMonthUrlsFromJoined now normalizedUsername (Finite j) <> [].
Proof.
  intros Hserver Hok Hjoined Hclip now Hle.
  pose proof (getMonthUrlsFromJoined_nonempty now normalizedUsername j Hclip Hle) as Hne.
  split; [|exact Hne].
  rewrite plan_archives_run, Hserver. unfold fetched. rewrite Hok, Hjoined. cbv zeta.
  fold now. destruct (getMonthUrlsFromJoined now normalizedUsername (Finite j));
    [contradiction|reflexivity].
Qed.

(** X7.  Without month URLs the planning stage asks the archive index: when
    the profile request succeeds and [getMonthUrlsFromJoined] returns no URL
    (as it does for a [joined] that is not a finite number), a second
    request goes to the index, whose [archives] are returned, or the empty
    list when the field is absent; a [null] body throws a [TypeError], and a
    failed index request throws its error. *)
Theorem plan_archives_falls_back normalizedUsername w status profileData :
  server (requests w) (profile_url normalizedUsername) = Response status (JsonBody profileData) ->
  response_ok status = true ->
  getMonthUrlsFromJoined (clock (requests w ++ [profile_url normalizedUsername])%list)
    normalizedUsername (joined_of profileData) = [] ->
  let asked := logged w [profile_url normalizedUsername; index_url normalizedUsername] in
  let answer :=
    server (requests w ++ [profile_url normalizedUsername])%list
      (index_url normalizedUsername) in
  (forall st o, answer = Response st (JsonBody (Some o)) -> response_ok st = true ->
     plan_archives server clock normalizedUsername w =
       (Ok (match archives o with Some a => a | None => [] end), asked)) /\
  (forall st, answer = Response st (JsonBody None) -> response_ok st = true ->
     plan_archives server clock normalizedUsername w = (Throw (TypeError "archives"), asked)) /\
  (forall e, fst (fetchJson server (index_url normalizedUsername)
                    (logged w [profile_url normalizedUsername])) = Throw e ->
     plan_archives server clock normalizedUsername w = (Throw e, asked)).
Proof.
  intros Hserver Hok Hnone asked answer.
  assert (Hrun : plan_archives server clock normalizedUsername w =
                 (match fetched (index_url normalizedUsername) answer with
                  | Ok index => archives_or_empty index
                  | Throw e => Throw e
                  end, asked)).
  { rewrite plan_archives_run, Hserver. unfold fetched at 1. rewrite Hok. cbv zeta.
    rewrite Hnone. reflexivity. }
  split; [|split].
  - intros st o Ha Hst. rewrite Hrun, Ha. unfold fetched. rewrite Hst. reflexivity.
  - intros st Ha Hst. rewrite Hrun, Ha. unfold fetched. rewrite Hst. reflexivity.
  - intros e He. rewrite fetchJson_fetched in He. cbn [fst logged requests] in He.
    rewrite Hrun. fold answer in He. rewrite He. reflexivity.
Qed.

End PlanProperties.

(** The profile of bob on 2024-01-10 gives the three months since November
    2023, with one request. *)
Lemma plan_archives_from_join_date_witness :
  let w := {| requests := []; storage := scenario_store "today" None |} in
  plan_archives bob_server january_clock "bob" w =
    (Ok ["https://api.chess.com/pub/player/bob/games/2023/11";
         "https://api.chess.com/pub/player/bob/games/2023/12";
         "https://api.chess.com/pub/player/bob/games/2024/01"],
     logged w ["https://api.chess.com/pub/player/bob"]).
Proof.
  intros w.
  destruct (plan_archives_from_join_date bob_server january_clock "bob" w 200
              (Some {| joined := Finite 1700006400; archives := None; games := None |})
              1700006400) as [Hrun _].
  - reflexivity.
  - reflexivity.
  - reflexivity.
  - reflexivity.
  - vm_compute. discriminate.
  - rewrite Hrun. vm_compute. reflexivity.
Defined.

(** The profile of p1 has no [joined]: the index is asked and its one month
    is the plan. *)
Lemma plan_archives_falls_back_witness :
  let w := {| requests := []; storage := scenario_store "today" None |} in
  plan_archives (scenario_server []) scenario_clock "p1" w =
    (Ok ["https://api.chess.com/pub/player/p1/games/2024/03"],
     logged w ["https://api.chess.com/pub/player/p1";
               "https://api.chess.com/pub/player/p1/games/archives"]).
Proof.
  intros w.
  destruct (plan_archives_falls_back (scenario_server []) scenario_clock "p1" w 200
              (Some {| joined := Absent; archives := None; games := None |}))
    as [Hindex _].
  - reflexivity.
  - reflexivity.
  - reflexivity.
  - apply (Hindex 200
             {| joined := Absent;
                archives := Some ["https://api.chess.com/pub/player/p1/games/2024/03"];
                games := None |}); reflexivity.
Defined.

(** ** The two entry points as a whole *)

Section EntryPoints.
Variable server : list string -> string -> http_outcome.
Variable clock : list string -> Z.
Variable toIsoDate : Z -> string.
Variable JSON_parse : string -> option json.
Variable JSON_stringify : json -> string.

Lemma fetchGamesBetween_plan_throw player1 player2 w e w1 :
  plan_archives server clock (JS.toLowerCase player1) w = (Throw e, w1) ->
  fetchGamesBetween server clock player1 player2 w = (Throw e, w1).
Proof.
  intros Hplan. unfold fetchGamesBetween. unfold bind at 1. rewrite Hplan. reflexivity.
Qed.

Lemma plan_archives_profile_throw normalizedUsername w e :
  fst (fetchJson server (profile_url normalizedUsername) w) = Throw e ->
  plan_archives server clock normalizedUsername w =
    (Throw e, logged w [profile_url normalizedUsername]).
Proof.
  intros He. rewrite fetchJson_fetched in He. cbn [fst] in He.
  rewrite plan_archives_run, He. reflexivity.
Qed.

Lemma recompute_history_written normalizedUsername cacheKey refreshKey w
      fallbackArchives w1 :
  plan_archives server clock normalizedUsername w = (Ok fallbackArchives, w1) ->
  disabled (storage w) = None -> full (storage w) = None ->
  let history :=
    reduceHistory toIsoDate normalizedUsername
      (archive_games server (requests w1) fallbackArchives) in
  recompute_history server clock toIsoDate JSON_stringify normalizedUsername
    cacheKey refreshKey w =
  (Ok (map json_of_sample history),
   {| requests := (requests w1 ++ fallbackArchives)%list;
      storage :=
        store_with (storage w) cacheKey
          (JSON_stringify
             (cache_entry refreshKey history
                (clock (requests w1 ++ fallbackArchives)%list))) |}).
Proof.
  intros Hplan Hd Hf history. unfold recompute_history. unfold bind at 1. rewrite Hplan.
  unfold bind at 1. rewrite fetchMonthlyArchives_run.
  pose proof (plan_archives_storage server clock normalizedUsername w) as Hst.
  rewrite Hplan in Hst. cbn [snd] in Hst.
  unfold bind, Date_now, try_catch, ret, setItem. cbn [storage logged requests].
  rewrite Hst, Hd, Hf. reflexivity.
Qed.

(** X8.  A failed profile request ends both entry points: the error of
    [fetchJson] for the profile of the (lower-cased) first handle is thrown
    by [fetchGamesBetween], and by [fetchRapidHistory] when the cache has
    nothing usable; that request is the only one issued and the store is
    left as it was. *)
Theorem profile_failure_propagates username other w e :
  fst (fetchJson server (profile_url (JS.toLowerCase username)) w) = Throw e ->
  fetchGamesBetween server clock username other w =
    (Throw e, logged w [profile_url (JS.toLowerCase username)]) /\
  (usable_entry JSON_parse (storage w) (cache_key username)
     (getUtcRefreshKey (clock (requests w))) = None ->
   fetchRapidHistory server clock toIsoDate JSON_parse JSON_stringify username w =
     (Throw e, logged w [profile_url (JS.toLowerCase username)])).
Proof.
  intros He. pose proof (plan_archives_profile_throw _ _ _ He) as Hplan. split.
  - apply fetchGamesBetween_plan_throw, Hplan.
  - intros Hmiss. rewrite fetchRapidHistory_cache, Hmiss.
    apply recompute_history_throw, Hplan.
Qed.

(** X9.  What is written is found again.  After a miss with a successful
    planning stage and a store that takes the write, the store holds the
    new entry under the cache key; when [JSON.parse] reads back what
    [JSON.stringify] wrote and the UTC day has not changed, the next call
    returns the same series from the cache, with no request and no write. *)
Theorem fetchRapidHistory_second_call username w fallbackArchives w1 :
  let normalizedUsername := JS.toLowerCase username in
  let today := getUtcRefreshKey (clock (requests w)) in
  let history :=
    reduceHistory toIsoDate normalizedUsername
      (archive_games server (requests w1) fallbackArchives) in
  let entry :=
    cache_entry today history (clock (requests w1 ++ fallbackArchives)%list) in
  let w2 :=
    {| requests := (requests w1 ++ fallbackArchives)%list;
       storage := store_with (storage w) (cache_key username) (JSON_stringify entry) |} in
  usable_entry JSON_parse (storage w) (cache_key username) today = None ->
  plan_archives server clock normalizedUsername w = (Ok fallbackArchives, w1) ->
  disabled (storage w) = None -> full (storage w) = None ->
  fetchRapidHistory server clock toIsoDate JSON_parse JSON_stringify username w =
    (Ok (map json_of_sample history), w2) /\
  (JSON_parse (JSON_stringify entry) = Some entry ->
   JSON_stringify entry <> "" ->
   getUtcRefreshKey (clock (requests w2)) = today ->
   fetchRapidHistory server clock toIsoDate JSON_parse JSON_stringify username w2 =
     (Ok (map json_of_sample history), w2)).
Proof.
  intros normalizedUsername today history entry w2 Hmiss Hplan Hd Hf. split.
  - rewrite fetchRapidHistory_cache. fold today. rewrite Hmiss.
    apply (recompute_history_written _ _ _ _ _ _ Hplan Hd Hf).
  - intros Hparse Hne Hday. rewrite fetchRapidHistory_cache, Hday.
    unfold usable_entry. cbn [storage w2 store_with disabled items].
    rewrite String.eqb_refl.
    destruct (String.eqb_spec (JSON_stringify entry) ""); [contradiction|].
    rewrite Hparse. unfold entry, cache_entry. cbn [get_field find fst snd option_map String.eqb Ascii.eqb Bool.eqb].
    rewrite String.eqb_refl. reflexivity.
Qed.

(** X10.  [fetchRapidHistory] owns one key: whatever the outcome, the
    store afterwards differs from the store before at most in the item
    under the cache key of the handle, and the request log has only grown. *)
Theorem fetchRapidHistory_touches_own_key username w :
  let after := snd (fetchRapidHistory server clock toIsoDate JSON_parse JSON_stringify
                      username w) in
  (forall k, k <> cache_key username ->
             items (storage after) k = items (storage w) k) /\
  (disabled (storage w) <> None \/ full (storage w) <> None ->
   storage after = storage w) /\
  exists urls, requests after = (requests w ++ urls)%list.
Proof.
  intros after. unfold after. rewrite fetchRapidHistory_cache.
  destruct (usable_entry _ _ _ _) as [h|].
  { cbn [snd]. split; [reflexivity|]. split; [reflexivity|].
    exists []. rewrite app_nil_r. reflexivity. }
  set (today := getUtcRefreshKey (clock (requests w))).
  destruct (plan_archives_world server clock (JS.toLowerCase username) w) as [urls Hw].
  destruct (plan_archives server clock (JS.toLowerCase username) w) as [[a|e] w1] eqn:Hplan;
    cbn [snd] in Hw; subst w1.
  - destruct (disabled (storage w)) as [e|] eqn:Hd.
    { rewrite (recompute_history_write_failure _ _ _ _ _ _ _ _ _ _ Hplan)
        by (left; rewrite Hd; discriminate).
      cbn [snd logged storage requests].
      split; [reflexivity|]. split; [reflexivity|].
      exists (urls ++ a)%list. rewrite app_assoc. reflexivity. }
    destruct (full (storage w)) as [e|] eqn:Hf.
    { rewrite (recompute_history_write_failure _ _ _ _ _ _ _ _ _ _ Hplan)
        by (right; rewrite Hf; discriminate).
      cbn [snd logged storage requests].
      split; [reflexivity|]. split; [reflexivity|].
      exists (urls ++ a)%list. rewrite app_assoc. reflexivity. }
    rewrite (recompute_history_written _ _ _ _ _ _ Hplan Hd Hf).
    cbn [snd logged storage requests store_with items].
    split.
    + intros k Hk. destruct (String.eqb_spec k (cache_key username)); [contradiction|reflexivity].
    + split; [intros [H|H]; exfalso; apply H; reflexivity|].
      exists (urls ++ a)%list. rewrite app_assoc. reflexivity.
  - rewrite (recompute_history_throw _ _ _ _ _ _ _ _ _ _ Hplan).
    cbn [snd logged storage requests].
    split; [reflexivity|]. split; [reflexivity|]. exists urls. reflexivity.
Qed.

(** X11.  [fetchGamesBetween] keeps nothing: whatever the outcome, the
    store is the one it was, and the request log has only grown. *)
Theorem fetchGamesBetween_leaves_store player1 player2 w :
  exists urls,
    snd (fetchGamesBetween server clock player1 player2 w) = logged w urls /\
    storage (snd (fetchGamesBetween server clock player1 player2 w)) = storage w.
Proof.
  destruct (plan_archives_world server clock (JS.toLowerCase player1) w) as [urls Hw].
  destruct (plan_archives server clock (JS.toLowerCase player1) w) as [[a|e] w1] eqn:Hplan;
    cbn [snd] in Hw; subst w1.
  - rewrite (fetchGamesBetween_run _ _ _ _ _ _ _ Hplan). cbn [snd].
    exists (urls ++ a)%list. rewrite logged_app. split; reflexivity.
  - rewrite (fetchGamesBetween_plan_throw _ _ _ _ _ Hplan). cbn [snd].
    exists urls. split; reflexivity.
Qed.

End EntryPoints.

(** A handle without profile: both entry points throw the error of the 404
    answer after one request. *)
Lemma profile_failure_propagates_witness :
  let w := {| requests := []; storage := scenario_store "today" None |} in
  let e := Error "Request failed (404) for https://api.chess.com/pub/player/nobody" in
  fetchGamesBetween (scenario_server []) scenario_clock "Nobody" "p2" w =
    (Throw e, logged w ["https://api.chess.com/pub/player/nobody"]) /\
  fetchRapidHistory (scenario_server []) scenario_clock toIsoDate_utc scenario_parse
    scenario_stringify "Nobody" w =
    (Throw e, logged w ["https://api.chess.com/pub/player/nobody"]).
Proof.
  intros w e.
  destruct (profile_failure_propagates (scenario_server []) scenario_clock toIsoDate_utc
              scenario_parse scenario_stringify "Nobody" "p2" w e) as [Hgames Hhistory].
  - reflexivity.
  - split; [exact Hgames|]. apply Hhistory. reflexivity.
Defined.

(** An empty store, two games of p1 on 2024-03-05: the first call fetches
    and writes the entry, the second call of the day reads it back. *)
Lemma fetchRapidHistory_second_call_witness :
  let month := [rated_rapid 1709640000 (player "p1" 1500) (player "p3" 1490);
                rated_rapid 1709650000 (player "p2" 1480) (player "P1" 1510)] in
  let empty := {| disabled := None; full := None; items := fun _ => None |} in
  let w := {| requests := []; storage := empty |} in
  let w2 := {| requests := scenario_requests;
               storage := store_with empty "chess-rapid-history-v3:p1" "entry" |} in
  let series :=
    [json_of_sample {| date := "2024-03-05"; sample_rating := 1510; epoch := 1709650000 |}] in
  fetchRapidHistory (scenario_server month) scenario_clock toIsoDate_utc
    scenario_parse_entry scenario_stringify "P1" w = (Ok series, w2) /\
  fetchRapidHistory (scenario_server month) scenario_clock toIsoDate_utc
    scenario_parse_entry scenario_stringify "P1" w2 = (Ok series, w2).
Proof.
  intros month empty w w2 series.
  destruct (fetchRapidHistory_second_call (scenario_server month) scenario_clock
              toIsoDate_utc scenario_parse_entry scenario_stringify "P1" w
              ["https://api.chess.com/pub/player/p1/games/2024/03"]
              (logged w ["https://api.chess.com/pub/player/p1";
                         "https://api.chess.com/pub/player/p1/games/archives"]))
    as [Hfirst Hsecond]; try reflexivity.
  split; [exact Hfirst|].
  apply Hsecond; [reflexivity|discriminate|reflexivity].
Defined.

(** ** Equally late games in a head-to-head list *)

Lemma insert_keeps_ties {A} (cmp : A -> A -> Z) (key : A -> Z) t x l :
  (forall a b, 0 < cmp a b -> key a <> key b) ->
  filter (fun a => key a =? t) (JS.insert cmp x l) =
  filter (fun a => key a =? t) (x :: l).
Proof.
  intros Hcmp. induction l as [|y l IH]; [reflexivity|].
  cbn [JS.insert]. destruct (Z.leb_spec (cmp x y) 0) as [Hle|Hgt]; [reflexivity|].
  cbn [filter] in *. rewrite IH.
  specialize (Hcmp x y Hgt).
  destruct (Z.eqb_spec (key x) t); destruct (Z.eqb_spec (key y) t);
    try reflexivity; congruence.
Qed.

Lemma sort_keeps_ties {A} (cmp : A -> A -> Z) (key : A -> Z) t l :
  (forall a b, 0 < cmp a b -> key a <> key b) ->
  filter (fun a => key a =? t) (JS.sort cmp l) = filter (fun a => key a =? t) l.
Proof.
  intros Hcmp. induction l as [|x l IH]; [reflexivity|].
  cbn [JS.sort]. rewrite (insert_keeps_ties cmp key t x _ Hcmp).
  cbn [filter]. rewrite IH. reflexivity.
Qed.

(** X12.  In the list of [fetchGamesBetween], games that ended at the same
    second stand in the order in which the archives were fetched: under the
    conditions of a successful run, the returned games with a given
    [end_time] are the mutual games with that [end_time], in archive
    order. *)
Theorem fetchGamesBetween_keeps_tie_order server clock player1 player2 w archives w1 :
  let p1 := JS.toLowerCase player1 in
  let p2 := JS.toLowerCase player2 in
  let allGames := archive_games server (requests w1) archives in
  plan_archives server clock p1 w = (Ok archives, w1) ->
  (forall g, In g allGames -> rated g = true -> time_class g = "rapid" -> has_usernames g) ->
  exists mutualGames,
    fetchGamesBetween server clock player1 player2 w = (Ok mutualGames, logged w1 archives) /\
    forall t,
      filter (fun g => end_time g =? t) mutualGames =
      filter (fun g => end_time g =? t) (filter (mutual p1 p2) allGames).
Proof.
  intros p1 p2 allGames Hplan Hnamed.
  exists (JS.sort newest_first (filter (mutual p1 p2) allGames)). split.
  - rewrite (fetchGamesBetween_run _ _ _ _ _ _ _ Hplan). fold p1 p2 allGames.
    rewrite (filter_throwing_ok _ (mutual p1 p2)); [reflexivity|].
    intros g Hg. apply is_mutual_named. auto.
  - intros t. apply sort_keeps_ties. unfold newest_first. intros a b H. lia.
Qed.

(** Two games of p1 against p2 that end at the same second, and a later
    one: the later one comes first, the two others stay as fetched. *)
Lemma fetchGamesBetween_keeps_tie_order_witness :
  let first := rated_rapid 1709640000 (player "p1" 1500) (player "p2" 1490) in
  let second := rated_rapid 1709640000 (player "p2" 1480) (player "p1" 1510) in
  let last := rated_rapid 1709650000 (player "p1" 1520) (player "p2" 1470) in
  let w := {| requests := []; storage := scenario_store "today" None |} in
  fetchGamesBetween (scenario_server [first; second; last]) scenario_clock "p1" "p2" w =
    (Ok [last; first; second], logged w scenario_requests).
Proof.
  intros first second last w.
  destruct (fetchGamesBetween_keeps_tie_order (scenario_server [first; second; last])
              scenario_clock "p1" "p2" w
              ["https://api.chess.com/pub/player/p1/games/2024/03"]
              (logged w ["https://api.chess.com/pub/player/p1";
                         "https://api.chess.com/pub/player/p1/games/archives"]))
    as [mutualGames [Hrun _]].
  - vm_compute. reflexivity.
  - intros g Hin _ _. vm_compute in Hin.
    destruct Hin as [<-|[<-|[<-|[]]]]; split; eexists; eexists; split; reflexivity.
  - rewrite Hrun. f_equal.
    rewrite (fetchGamesBetween_run _ _ _ _ _
               ["https://api.chess.com/pub/player/p1/games/2024/03"]
               (logged w ["https://api.chess.com/pub/player/p1";
                          "https://api.chess.com/pub/player/p1/games/archives"]))
      in Hrun by (vm_compute; reflexivity).
    vm_compute in Hrun. injection Hrun as <-. reflexivity.
Defined.

(** ** The row splitter *)

Lemma trimStart_chars s c :
  In c (list_ascii_of_string (trimStart s)) -> In c (list_ascii_of_string s).
Proof.
  induction s as [|a s IH]; cbn; [auto|].
  destruct (is_space a); cbn; auto.
Qed.

Lemma trimEnd_chars s c :
  In c (list_ascii_of_string (trimEnd s)) -> In c (list_ascii_of_string s).
Proof.
  induction s as [|a s IH]; cbn; [auto|].
  destruct (trimEnd s) as [|b kept] eqn:E.
  - destruct (is_space a); cbn; [intros []|tauto].
  - cbn in *. tauto.
Qed.

Lemma trim_chars s c :
  In c (list_ascii_of_string (trim s)) -> In c (list_ascii_of_string s).
Proof. unfold trim. intros H. apply trimStart_chars, trimEnd_chars, H. Qed.

Lemma list_ascii_app a b :
  list_ascii_of_string (a ++ b) = (list_ascii_of_string a ++ list_ascii_of_string b)%list.
Proof. induction a as [|c a IH]; cbn; [reflexivity|]. rewrite IH. reflexivity. Qed.

Lemma splitRow_step_cols st ch :
  List.length (cols (splitRow_step st ch)) =
  (List.length (cols st) +
   if (negb (Ascii.eqb ch quote) && Ascii.eqb ch comma && negb (inQuotes st))%bool
   then 1 else 0)%nat.
Proof.
  unfold splitRow_step.
  destruct (Ascii.eqb ch quote); destruct (Ascii.eqb ch comma); destruct (inQuotes st);
    cbn; rewrite ?length_app; cbn; lia.
Qed.

Lemma splitRow_step_quotes st ch :
  inQuotes (splitRow_step st ch) = xorb (inQuotes st) (Ascii.eqb ch quote).
Proof.
  unfold splitRow_step.
  destruct (Ascii.eqb ch quote); destruct (Ascii.eqb ch comma); destruct (inQuotes st);
    reflexivity.
Qed.

Lemma comma_not_quote ch : Ascii.eqb ch comma = true -> Ascii.eqb ch quote = false.
Proof. intros H. apply Ascii.eqb_eq in H. subst. reflexivity. Qed.

Lemma fold_splitRow_cols chars : forall st,
  List.length (cols (fold_left splitRow_step chars st)) =
  (List.length (cols st) +
   List.length
     (filter
        (fun i =>
           match nth_error chars i with
           | Some c =>
               Ascii.eqb c comma &&
               Bool.eqb (Nat.even (count_occ ascii_dec (firstn i chars) quote))
                 (negb (inQuotes st))
           | None => false
           end)
        (seq 0 (List.length chars))))%nat.
Proof.
  induction chars as [|ch chars IH]; intros st; [cbn; lia|].
  cbn [fold_left List.length]. rewrite IH, splitRow_step_cols, splitRow_step_quotes.
  rewrite <- cons_seq, <- seq_shift. cbn [filter nth_error firstn count_occ].
  assert (Hpoint : forall q i,
    match nth_error (ch :: chars) (S i) with
    | Some c =>
        Ascii.eqb c comma &&
        Bool.eqb (Nat.even (count_occ ascii_dec (firstn (S i) (ch :: chars)) quote)) (negb q)
    | None => false
    end =
    match nth_error chars i with
    | Some c =>
        Ascii.eqb c comma &&
        Bool.eqb (Nat.even (count_occ ascii_dec (firstn i chars) quote))
          (negb (xorb q (Ascii.eqb ch quote)))
    | None => false
    end).
  { intros q i. cbn [nth_error firstn count_occ].
    destruct (nth_error chars i) as [c|]; [|reflexivity]. f_equal.
    destruct (ascii_dec ch quote) as [->|Hne].
    - rewrite Ascii.eqb_refl, Nat.even_succ, <- Nat.negb_even.
      destruct (Nat.even _); destruct q; reflexivity.
    - apply Ascii.eqb_neq in Hne. rewrite Hne.
      destruct (Nat.even _); destruct q; reflexivity. }
  remember (inQuotes st) as q.
  match goal with |- context [if ?c then 0%nat :: _ else _] => destruct c eqn:E end;
    cbn [List.length]; rewrite filter_map_swap, length_map, (filter_ext _ _ (Hpoint q));
    destruct (Ascii.eqb ch comma) eqn:Ec;
    try rewrite (comma_not_quote _ Ec) in *;
    destruct q; destruct (Ascii.eqb ch quote); cbn in E |- *; try discriminate; lia.
Qed.

Lemma splitRow_step_no_quote st ch :
  Forall (fun col => ~ In quote (list_ascii_of_string col)) (cols st) ->
  ~ In quote (list_ascii_of_string (current st)) ->
  Forall (fun col => ~ In quote (list_ascii_of_string col)) (cols (splitRow_step st ch)) /\
  ~ In quote (list_ascii_of_string (current (splitRow_step st ch))).
Proof.
  intros Hcols Hcur. unfold splitRow_step.
  destruct (Ascii.eqb_spec ch quote) as [->|Hne]; [cbn; auto|].
  destruct (Ascii.eqb ch comma && negb (inQuotes st))%bool; cbn [cols current]; split.
  - apply Forall_app. split; [exact Hcols|].
    constructor; [|constructor]. intros H. apply Hcur, trim_chars, H.
  - intros [].
  - exact Hcols.
  - rewrite list_ascii_app. cbn. intros H. apply in_app_or in H.
    destruct H as [H|[H|[]]]; [auto|].
    first [exact (Hne H) | exact (Hne (eq_sym H))].
Qed.

Lemma fold_splitRow_no_quote chars : forall st,
  Forall (fun col => ~ In quote (list_ascii_of_string col)) (cols st) ->
  ~ In quote (list_ascii_of_string (current st)) ->
  Forall (fun col => ~ In quote (list_ascii_of_string col))
    (cols (fold_left splitRow_step chars st)) /\
  ~ In quote (list_ascii_of_string (current (fold_left splitRow_step chars st))).
Proof.
  induction chars as [|ch chars IH]; intros st Hcols Hcur; [auto|].
  cbn [fold_left]. destruct (splitRow_step_no_quote st ch Hcols Hcur) as [H1 H2].
  apply IH; assumption.
Qed.

Lemma append_empty_r s : s ++ "" = s.
Proof. induction s as [|c s IH]; cbn; [reflexivity|]. rewrite IH. reflexivity. Qed.

Lemma separator_from_false chars i :
  separator_from false chars i = separator_at chars i.
Proof.
  unfold separator_from, separator_at.
  destruct (nth_error chars i); [|reflexivity].
  destruct (Nat.even _); reflexivity.
Qed.

Lemma separator_from_head q ch chars :
  separator_from q (ch :: chars) 0 = (Ascii.eqb ch comma && negb q)%bool.
Proof.
  unfold separator_from. cbn [nth_error firstn count_occ Nat.even].
  destruct q; reflexivity.
Qed.

Lemma separator_from_cons q ch chars i :
  separator_from q (ch :: chars) (S i) =
  separator_from (xorb q (Ascii.eqb ch quote)) chars i.
Proof.
  unfold separator_from. cbn [nth_error firstn count_occ].
  destruct (nth_error chars i) as [c|]; [|reflexivity]. f_equal.
  destruct (ascii_dec ch quote) as [->|Hne].
  - rewrite Ascii.eqb_refl, Nat.even_succ, <- Nat.negb_even.
    destruct (Nat.even _); destruct q; reflexivity.
  - apply Ascii.eqb_neq in Hne. rewrite Hne.
    destruct (Nat.even _); destruct q; reflexivity.
Qed.

Lemma positions_cons q ch chars :
  filter (separator_from q (ch :: chars)) (seq 0 (List.length (ch :: chars))) =
  ((if (Ascii.eqb ch comma && negb q)%bool then [0%nat] else []) ++
   map S (filter (separator_from (xorb q (Ascii.eqb ch quote)) chars)
            (seq 0 (List.length chars))))%list.
Proof.
  cbn [List.length]. rewrite <- cons_seq, <- seq_shift. cbn [filter].
  rewrite separator_from_head, filter_map_swap.
  rewrite (filter_ext _ _ (separator_from_cons q ch chars)).
  destruct (Ascii.eqb ch comma && negb q)%bool; reflexivity.
Qed.

Lemma slices_shift ch chars : forall positions start,
  slices (ch :: chars) (S start) (map S positions) = slices chars start positions.
Proof.
  induction positions as [|p positions IH]; intros start; cbn [slices map].
  - reflexivity.
  - rewrite IH. reflexivity.
Qed.

Lemma slices_head ch chars positions :
  slices (ch :: chars) 0 (map S positions) = prepend [ch] (slices chars 0 positions).
Proof.
  destruct positions as [|p positions]; cbn [slices map prepend].
  - reflexivity.
  - rewrite slices_shift, !Nat.sub_0_r. reflexivity.
Qed.

Lemma prepend_prepend front ch pieces :
  prepend front (prepend [ch] pieces) = prepend (front ++ [ch])%list pieces.
Proof.
  destruct pieces as [|piece rest]; cbn [prepend].
  - reflexivity.
  - rewrite <- app_assoc. reflexivity.
Qed.

Lemma prepend_nil_slices chars start positions :
  prepend [] (slices chars start positions) = slices chars start positions.
Proof. destruct positions; reflexivity. Qed.

Lemma string_of_list_ascii_app a b :
  string_of_list_ascii (a ++ b) = string_of_list_ascii a ++ string_of_list_ascii b.
Proof. induction a as [|c a IH]; cbn; [reflexivity|]. rewrite IH. reflexivity. Qed.

Lemma remove_quote_snoc front ch :
  string_of_list_ascii (remove ascii_dec quote (front ++ [ch])) =
  if Ascii.eqb ch quote then string_of_list_ascii (remove ascii_dec quote front)
  else string_of_list_ascii (remove ascii_dec quote front) ++ String ch "".
Proof.
  rewrite remove_app, string_of_list_ascii_app. cbn [remove].
  destruct (ascii_dec quote ch) as [<-|Hne].
  - rewrite Ascii.eqb_refl. cbn. apply append_empty_r.
  - assert (E : Ascii.eqb ch quote = false)
      by (apply Ascii.eqb_neq; intros H; apply Hne; symmetry; exact H).
    rewrite E. reflexivity.
Qed.

(** The loop of [splitRow]: with [front] the characters read since the last
    separator, the columns still to come are those of the pieces of the
    rest of the line, the first one continued at its front by [front]. *)
Lemma fold_splitRow_slices chars : forall st front,
  current st = string_of_list_ascii (remove ascii_dec quote front) ->
  (cols (fold_left splitRow_step chars st) ++
   [trim (current (fold_left splitRow_step chars st))])%list =
  (cols st ++
   map column_of
     (prepend front
        (slices chars 0
           (filter (separator_from (inQuotes st) chars) (seq 0 (List.length chars))))))%list.
Proof.
  induction chars as [|ch chars IH]; intros st front Hcur.
  - cbn. unfold column_of. rewrite app_nil_r, Hcur. reflexivity.
  - cbn [fold_left]. rewrite positions_cons.
    pose proof (remove_quote_snoc front ch) as Hsnoc.
    destruct (Ascii.eqb ch quote) eqn:Eq.
    + assert (Ec : Ascii.eqb ch comma = false).
      { apply Ascii.eqb_eq in Eq. subst ch. reflexivity. }
      assert (Hstep : splitRow_step st ch =
                      {| cols := cols st; current := current st;
                         inQuotes := negb (inQuotes st) |}).
      { unfold splitRow_step. rewrite Eq. reflexivity. }
      rewrite Hstep, (IH _ (front ++ [ch])%list) by (cbn [current]; congruence).
      cbn [cols inQuotes]. rewrite Ec. cbn [andb app].
      rewrite slices_head, prepend_prepend.
      destruct (inQuotes st); reflexivity.
    + destruct (Ascii.eqb ch comma && negb (inQuotes st))%bool eqn:Ec.
      * assert (Hstep : splitRow_step st ch =
                        {| cols := (cols st ++ [trim (current st)])%list;
                           current := EmptyString; inQuotes := inQuotes st |}).
        { unfold splitRow_step. rewrite Eq, Ec. reflexivity. }
        rewrite Hstep, (IH _ []) by reflexivity.
        cbn [cols inQuotes]. rewrite prepend_nil_slices.
        cbn [app slices map prepend]. rewrite slices_shift.
        cbn [Nat.sub firstn map]. rewrite app_nil_r, <- app_assoc.
        unfold column_of at 2. rewrite <- Hcur.
        destruct (inQuotes st); reflexivity.
      * assert (Hstep : splitRow_step st ch =
                        {| cols := cols st; current := current st ++ String ch "";
                           inQuotes := inQuotes st |}).
        { unfold splitRow_step. rewrite Eq, Ec. reflexivity. }
        rewrite Hstep, (IH _ (front ++ [ch])%list) by (cbn [current]; congruence).
        cbn [cols inQuotes app].
        rewrite slices_head, prepend_prepend.
        destruct (inQuotes st); reflexivity.
Qed.

(** X13.  [splitRow] splits the line at the commas that have an even number
    of double quotes before them, and at no other place: its columns are,
    in order, the pieces of the line between those commas (from the start
    to the first, between consecutive ones, from the last to the end), each
    piece with its double quotes removed and then trimmed.  So it returns
    one column more than there are such commas, and no column holds a
    double quote. *)
Theorem splitRow_columns line :
  splitRow line =
    map column_of
      (slices (list_ascii_of_string line) 0
         (separator_positions (list_ascii_of_string line))) /\
  List.length (splitRow line) = S (separators (list_ascii_of_string line)) /\
  Forall (fun col => ~ In quote (list_ascii_of_string col)) (splitRow line).
Proof.
  unfold splitRow. cbv zeta. split; [|split].
  - rewrite (fold_splitRow_slices _ _ []) by reflexivity.
    cbn [cols inQuotes app]. rewrite prepend_nil_slices.
    unfold separator_positions.
    rewrite (filter_ext _ _ (separator_from_false (list_ascii_of_string line))).
    reflexivity.
  - rewrite length_app, fold_splitRow_cols. cbn [cols inQuotes negb List.length].
    unfold separators. rewrite Nat.add_comm. cbn [Nat.add].
    f_equal. f_equal. apply filter_ext. intros i. unfold separator_at.
    destruct (nth_error _ i); [|reflexivity].
    destruct (Nat.even _); reflexivity.
  - destruct (fold_splitRow_no_quote (list_ascii_of_string line)
                {| cols := []; current := EmptyString; inQuotes := false |})
      as [Hcols Hcur]; [constructor|intros []|].
    apply Forall_app. split; [exact Hcols|].
    constructor; [|constructor]. intros H. apply Hcur, trim_chars, H.
Qed.

(** Two lines of a balance sheet: a plain one, and one whose amount is
    quoted and holds a comma. *)
Example splitRow_plain_line :
  splitRow "2024-03-05,1200.50,7" = ["2024-03-05"; "1200.50"; "7"].
Proof. vm_compute. reflexivity. Qed.

Example splitRow_quoted_amount :
  splitRow ("2024-03-05, " ++ String quote "1,200.50" ++ String quote ",7") =
    ["2024-03-05"; "1,200.50"; "7"] /\
  separator_positions
    (list_ascii_of_string
       ("2024-03-05, " ++ String quote "1,200.50" ++ String quote ",7")) =
    [10; 22]%nat.
Proof. vm_compute. split; reflexivity. Qed.

Lemma concat_snoc sep l x :
  l <> [] -> String.concat sep (l ++ [x]) = String.concat sep l ++ sep ++ x.
Proof.
  induction l as [|a l IH]; intros Hne; [contradiction|].
  destruct l as [|b l]; [reflexivity|].
  change (String.concat sep ((a :: b :: l) ++ [x]))
    with (a ++ sep ++ String.concat sep ((b :: l) ++ [x])).
  rewrite IH by discriminate.
  change (String.concat sep (a :: b :: l)) with (a ++ sep ++ String.concat sep (b :: l)).
  rewrite !append_assoc. reflexivity.
Qed.

Lemma concat_snoc_append sep l x y :
  String.concat sep (l ++ [x ++ y]) = String.concat sep (l ++ [x]) ++ y.
Proof.
  destruct l as [|a l]; [reflexivity|].
  rewrite !concat_snoc by discriminate. rewrite !append_assoc. reflexivity.
Qed.

Lemma trim_no_space s :
  (forall c, In c (list_ascii_of_string s) -> is_space c = false) -> trim s = s.
Proof.
  intros H. unfold trim.
  assert (Hstart : trimStart s = s).
  { destruct s as [|c s]; [reflexivity|]. cbn. rewrite (H c); [reflexivity|left; reflexivity]. }
  rewrite Hstart. clear Hstart.
  induction s as [|c s IH]; [reflexivity|].
  cbn. rewrite IH by (intros c' Hc'; apply H; right; exact Hc').
  destruct s; [|reflexivity]. rewrite (H c); [reflexivity|left; reflexivity].
Qed.

Lemma fold_splitRow_join chars : forall st,
  inQuotes st = false ->
  (forall c, In c chars -> c <> quote /\ is_space c = false) ->
  (forall c, In c (list_ascii_of_string (current st)) -> is_space c = false) ->
  let st' := fold_left splitRow_step chars st in
  String.concat "," (cols st' ++ [current st']) =
    String.concat "," (cols st ++ [current st]) ++ string_of_list_ascii chars /\
  (forall c, In c (list_ascii_of_string (current st')) -> is_space c = false).
Proof.
  induction chars as [|ch chars IH]; intros st Hq Hchars Hcur; cbv zeta.
  - cbn. rewrite append_empty_r. auto.
  - cbn [fold_left].
    destruct (Hchars ch (or_introl eq_refl)) as [Hnq Hns].
    assert (Hrest : forall c, In c chars -> c <> quote /\ is_space c = false)
      by (intros c Hc; apply Hchars; right; exact Hc).
    apply Ascii.eqb_neq in Hnq.
    destruct (Ascii.eqb ch comma) eqn:Ec.
    + assert (Hstep : splitRow_step st ch =
                      {| cols := (cols st ++ [current st])%list; current := "";
                         inQuotes := false |}).
      { unfold splitRow_step. rewrite Hnq, Ec, Hq. cbn. rewrite (trim_no_space _ Hcur).
        reflexivity. }
      rewrite Hstep.
      destruct (IH {| cols := (cols st ++ [current st])%list; current := "";
                      inQuotes := false |} eq_refl Hrest) as [Hjoin Hsp];
        [intros c []|].
      cbv zeta in Hjoin, Hsp. split; [|exact Hsp].
      rewrite Hjoin. cbn [cols current string_of_list_ascii].
      rewrite concat_snoc by (destruct (cols st); discriminate).
      apply Ascii.eqb_eq in Ec. subst ch. rewrite !append_assoc. reflexivity.
    + assert (Hstep : splitRow_step st ch =
                      {| cols := cols st; current := current st ++ String ch "";
                         inQuotes := false |}).
      { unfold splitRow_step. rewrite Hnq, Ec, Hq. reflexivity. }
      rewrite Hstep.
      destruct (IH {| cols := cols st; current := current st ++ String ch "";
                      inQuotes := false |} eq_refl Hrest) as [Hjoin Hsp].
      { cbn [current]. intros c Hc. rewrite list_ascii_app in Hc.
        apply in_app_or in Hc. destruct Hc as [Hc|[<-|[]]]; auto. }
      cbv zeta in Hjoin, Hsp. split; [|exact Hsp].
      rewrite Hjoin. cbn [cols current string_of_list_ascii].
      rewrite concat_snoc_append, !append_assoc. reflexivity.
Qed.

(** X14.  Splitting and joining again: a line without double quotes and
    without white space is the result of joining the columns of [splitRow]
    with commas. *)
Theorem splitRow_join line :
  (forall c, In c (list_ascii_of_string line) -> c <> quote /\ is_space c = false) ->
  String.concat "," (splitRow line) = line.
Proof.
  intros H. unfold splitRow. cbv zeta.
  destruct (fold_splitRow_join (list_ascii_of_string line)
              {| cols := []; current := ""; inQuotes := false |} eq_refl H)
    as [Hjoin Hsp]; [intros c []|].
  cbv zeta in Hjoin, Hsp. rewrite (trim_no_space _ Hsp), Hjoin.
  cbn [cols current app String.concat append].
  apply string_of_list_ascii_of_string.
Qed.

(** A row of three columns, the last one empty. *)
Lemma splitRow_join_witness :
  splitRow "2024-03-05,1200.50," = ["2024-03-05"; "1200.50"; ""] /\
  String.concat "," (splitRow "2024-03-05,1200.50,") = "2024-03-05,1200.50,".
Proof.
  split; [reflexivity|].
  apply splitRow_join. intros c Hc. cbn in Hc.
  repeat (destruct Hc as [<-|Hc]; [split; [discriminate|reflexivity]|]).
  destruct Hc.
Defined.

(** A quoted amount with a comma in it stays one column, without its
    quotes and without the blanks around it. *)
Example splitRow_quoted :
  splitRow ("05/03/2024 , " ++ String quote ("1,200.50" ++ String quote " ")) =
  ["05/03/2024"; "1,200.50"].
Proof. reflexivity. Qed.

(** ** Manual entries *)

Section EntryFacts.
Variable number : Type.
Variable parseFloat : string -> option number.
Variable at_most_zero : number -> bool.

Lemma deleteEntry_twice (entries : list (entry number)) d :
  deleteEntry (deleteEntry entries d) d = deleteEntry entries d.
Proof.
  unfold deleteEntry. induction entries as [|e entries IH]; [reflexivity|].
  cbn [filter]. destruct (negb (String.eqb (entry_date e) d)) eqn:E; [|exact IH].
  cbn [filter]. rewrite E, IH. reflexivity.
Qed.

Lemma deleteEntry_absent (entries : list (entry number)) d :
  ~ In d (map entry_date entries) -> deleteEntry entries d = entries.
Proof.
  unfold deleteEntry. induction entries as [|e entries IH]; intros H; [reflexivity|].
  cbn [filter]. cbn in H.
  destruct (String.eqb_spec (entry_date e) d) as [E|E]; [tauto|].
  cbn [negb]. rewrite IH by tauto. reflexivity.
Qed.

Lemma deleteEntry_dates (entries : list (entry number)) d :
  ~ In d (map entry_date (deleteEntry entries d)) /\
  (NoDup (map entry_date entries) -> NoDup (map entry_date (deleteEntry entries d))).
Proof.
  unfold deleteEntry. split.
  - intros H. apply in_map_iff in H. destruct H as [e [He Hin]].
    apply filter_In in Hin. destruct Hin as [_ Hk].
    rewrite He, String.eqb_refl in Hk. discriminate.
  - induction entries as [|e entries IH]; intros Hnd; [constructor|].
    cbn in Hnd. inversion Hnd as [|? ? Hnotin Hnd']; subst.
    cbn [filter]. destruct (negb (String.eqb (entry_date e) d)); [|auto].
    cbn. constructor; [|auto].
    intros H. apply Hnotin. apply in_map_iff in H. destruct H as [e' [He' Hin]].
    apply filter_In in Hin. apply in_map_iff. exists e'. tauto.
Qed.

(** X15.  [addEntry] keeps one balance per date.  When it sets the
    entries, the text parsed to a number above zero and the date was not
    empty; the new list is the old one without the entries of that date,
    followed by the new entry, so exactly the last entry carries the date;
    dates that were distinct stay distinct; and deleting the date again
    gives what deleting it from the old list gives (the old list itself when
    the date is new). *)
Theorem addEntry_one_per_date (entries entries' : list (entry number)) inputDate inputBalance :
  addEntry number parseFloat at_most_zero entries inputDate inputBalance = Some entries' ->
  exists bal,
    parseFloat (strip_money inputBalance) = Some bal /\
    at_most_zero bal = false /\ inputDate <> "" /\
    entries' = (deleteEntry entries inputDate ++
                [{| entry_date := inputDate; balance := bal |}])%list /\
    ~ In inputDate (map entry_date (deleteEntry entries inputDate)) /\
    (NoDup (map entry_date entries) -> NoDup (map entry_date entries')) /\
    deleteEntry entries' inputDate = deleteEntry entries inputDate /\
    (~ In inputDate (map entry_date entries) -> deleteEntry entries' inputDate = entries).
Proof.
  unfold addEntry. intros H.
  destruct (parseFloat (strip_money inputBalance)) as [bal|]; [|discriminate].
  destruct (String.eqb_spec inputDate "") as [E|E]; [discriminate|].
  destruct (at_most_zero bal) eqn:Ez; [discriminate|].
  cbn in H. injection H as <-. fold (deleteEntry entries inputDate).
  exists bal. destruct (deleteEntry_dates entries inputDate) as [Hnot Hnd].
  assert (Hdel : deleteEntry
                   (deleteEntry entries inputDate ++
                    [{| entry_date := inputDate; balance := bal |}]) inputDate =
                 deleteEntry entries inputDate).
  { unfold deleteEntry at 1. rewrite filter_app. cbn [filter entry_date].
    rewrite String.eqb_refl. cbn [negb]. rewrite app_nil_r. apply deleteEntry_twice. }
  repeat (split; [first [reflexivity | assumption]|]).
  split.
  - intros Hdup. rewrite map_app. cbn [map entry_date].
    apply NoDup_app_remove_l with (l := []). cbn [app].
    apply Permutation_NoDup with (l := inputDate :: map entry_date (deleteEntry entries inputDate)).
    + rewrite Permutation_app_comm. reflexivity.
    + constructor; auto.
  - split; [exact Hdel|].
    intros Habsent. rewrite Hdel. apply deleteEntry_absent, Habsent.
Qed.

End EntryFacts.

(** With whole numbers for balances: a second balance for 2024-03-05
    replaces the first one. *)
Lemma addEntry_one_per_date_witness :
  let parse := fun s : string =>
    if String.eqb s "1250" then Some 1250 else None in
  let old := [ {| entry_date := "2024-03-05"; balance := 1200 |};
               {| entry_date := "2024-03-06"; balance := 1300 |} ] in
  addEntry Z parse (fun b => b <=? 0) old "2024-03-05" "$1,250" =
    Some [ {| entry_date := "2024-03-06"; balance := 1300 |};
           {| entry_date := "2024-03-05"; balance := 1250 |} ].
Proof.
  intros parse old.
  destruct (addEntry Z parse (fun b => b <=? 0) old "2024-03-05" "$1,250")
    as [entries'|] eqn:E; [|vm_compute in E; discriminate].
  destruct (addEntry_one_per_date Z parse (fun b => b <=? 0) old entries'
              "2024-03-05" "$1,250" E) as [bal [Hbal [_ [_ [-> _]]]]].
  vm_compute in Hbal. injection Hbal as <-. reflexivity.
Defined.
